(** * wxpay: request signing and response verification

    A shallow embedding of [client.go] and [account.go]: the canonical
    form that [Sign] hashes, [ValidSign], [fillRequestData], the two POST
    paths, [processResponseXml] and the two bulk-download endpoints.

    Go strings are byte sequences and are modelled as [string]; the
    [Params] map is a [gmap string string]; the digests of Go's standard
    library ([crypto/md5], [crypto/sha256], [crypto/hmac]) are written out
    over [Z] so that signatures can be evaluated on concrete inputs. *)

From Stdlib Require Import ZArith List Ascii String Sorting.Sorted Permutation.
From stdpp Require Import base tactics option list gmap strings sorting fin_maps.

Local Open Scope Z_scope.

(** ** Bytes and 32-bit words *)

Module Word32.

Definition modulus : Z := 2 ^ 32.

Definition wrap (x : Z) : Z := x mod modulus.

Definition add (x y : Z) : Z := wrap (x + y).

Definition not32 (x : Z) : Z := Z.lxor x (modulus - 1).

Definition rotl (x n : Z) : Z :=
  Z.lor (wrap (Z.shiftl x n)) (Z.shiftr x (32 - n)).

Definition rotr (x n : Z) : Z :=
  Z.lor (Z.shiftr x n) (wrap (Z.shiftl x (32 - n))).

(** Little-endian and big-endian views of a word as four bytes. *)
Definition to_le (x : Z) : list Z :=
  [Z.land x 255; Z.land (Z.shiftr x 8) 255;
   Z.land (Z.shiftr x 16) 255; Z.land (Z.shiftr x 24) 255].

Definition to_be (x : Z) : list Z := rev (to_le x).

Definition of_le (bs : list Z) : Z :=
  fold_right (fun b acc => b + 256 * acc) 0 bs.

Definition of_be (bs : list Z) : Z := of_le (rev bs).

(** The 64-bit length field that closes the padding. *)
Definition len64_le (n : Z) : list Z :=
  to_le (wrap n) ++ to_le (wrap (Z.shiftr n 32)).

Definition len64_be (n : Z) : list Z := rev (len64_le n).

End Word32.

Module Bytes.

Definition of_string (s : string) : list Z :=
  map (fun a => Z.of_N (N_of_ascii a)) (list_ascii_of_string s).

(** Cut a list in pieces of [n] elements; [fuel] bounds the number of
    pieces, and the length of the list is always enough. *)
Fixpoint chunks_fuel {A} (fuel n : nat) (l : list A) : list (list A) :=
  match fuel with
  | O => []
  | S fuel' =>
      match l with
      | [] => []
      | _ => firstn n l :: chunks_fuel fuel' n (skipn n l)
      end
  end.

Definition chunks {A} (n : nat) (l : list A) : list (list A) :=
  chunks_fuel (length l) n l.

(** Padding shared by MD5 and SHA-256: a 0x80 byte, zeros up to 56
    modulo 64, then the bit length in eight bytes. *)
Definition zero_pad (len : nat) : list Z :=
  repeat 0 ((64 + 55 - (len mod 64))%nat mod 64)%nat.

Definition pad (len64 : Z -> list Z) (msg : list Z) : list Z :=
  msg ++ [128] ++ zero_pad (length msg) ++ len64 (8 * Z.of_nat (length msg)).

Definition xor_with (c : Z) (bs : list Z) : list Z :=
  map (fun b => Z.lxor b c) bs.

End Bytes.

(** ** crypto/md5 (RFC 1321) *)

Module Md5.
Import Word32.

Definition K : list Z :=
  [3614090360; 3905402710; 606105819; 3250441966; 4118548399; 1200080426;
   2821735955; 4249261313; 1770035416; 2336552879; 4294925233; 2304563134;
   1804603682; 4254626195; 2792965006; 1236535329; 4129170786; 3225465664;
   643717713; 3921069994; 3593408605; 38016083; 3634488961; 3889429448;
   568446438; 3275163606; 4107603335; 1163531501; 2850285829; 4243563512;
   1735328473; 2368359562; 4294588738; 2272392833; 1839030562; 4259657740;
   2763975236; 1272893353; 4139469664; 3200236656; 681279174; 3936430074;
   3572445317; 76029189; 3654602809; 3873151461; 530742520; 3299628645;
   4096336452; 1126891415; 2878612391; 4237533241; 1700485571; 2399980690;
   4293915773; 2240044497; 1873313359; 4264355552; 2734768916; 1309151649;
   4149444226; 3174756917; 718787259; 3951481745].

Definition S : list Z :=
  [7; 12; 17; 22; 7; 12; 17; 22; 7; 12; 17; 22; 7; 12; 17; 22;
   5; 9; 14; 20; 5; 9; 14; 20; 5; 9; 14; 20; 5; 9; 14; 20;
   4; 11; 16; 23; 4; 11; 16; 23; 4; 11; 16; 23; 4; 11; 16; 23;
   6; 10; 15; 21; 6; 10; 15; 21; 6; 10; 15; 21; 6; 10; 15; 21].

Definition state : Type := (Z * Z * Z * Z)%type.

Definition init : state := (1732584193, 4023233417, 2562383102, 271733878).

Definition mix (i b c d : Z) : Z :=
  if i <? 16 then Z.lor (Z.land b c) (Z.land (not32 b) d)
  else if i <? 32 then Z.lor (Z.land d b) (Z.land (not32 d) c)
  else if i <? 48 then Z.lxor (Z.lxor b c) d
  else Z.lxor c (Z.lor b (not32 d)).

Definition index (i : Z) : Z :=
  if i <? 16 then i
  else if i <? 32 then (5 * i + 1) mod 16
  else if i <? 48 then (3 * i + 5) mod 16
  else (7 * i) mod 16.

Definition step (M : list Z) (st : state) (i : nat) : state :=
  let '(a, b, c, d) := st in
  let zi := Z.of_nat i in
  let f := add (add (add (mix zi b c d) a) (nth i K 0))
               (nth (Z.to_nat (index zi)) M 0) in
  (d, add b (rotl f (nth i S 0)), b, c).

Definition block (st : state) (chunk : list Z) : state :=
  let M := map of_le (Bytes.chunks 4 chunk) in
  let '(a, b, c, d) := st in
  let '(a', b', c', d') := fold_left (step M) (seq 0 64) st in
  (add a a', add b b', add c c', add d d').

(** [md5.Sum]: the 16 bytes of the digest. *)
Definition Sum (msg : list Z) : list Z :=
  let '(a, b, c, d) :=
    fold_left block (Bytes.chunks 64 (Bytes.pad len64_le msg)) init in
  to_le a ++ to_le b ++ to_le c ++ to_le d.

End Md5.

(** ** crypto/sha256 (FIPS 180-4) and crypto/hmac (RFC 2104) *)

Module Sha256.
Import Word32.

Definition K : list Z :=
  [1116352408; 1899447441; 3049323471; 3921009573; 961987163; 1508970993;
   2453635748; 2870763221; 3624381080; 310598401; 607225278; 1426881987;
   1925078388; 2162078206; 2614888103; 3248222580; 3835390401; 4022224774;
   264347078; 604807628; 770255983; 1249150122; 1555081692; 1996064986;
   2554220882; 2821834349; 2952996808; 3210313671; 3336571891; 3584528711;
   113926993; 338241895; 666307205; 773529912; 1294757372; 1396182291;
   1695183700; 1986661051; 2177026350; 2456956037; 2730485921; 2820302411;
   3259730800; 3345764771; 3516065817; 3600352804; 4094571909; 275423344;
   430227734; 506948616; 659060556; 883997877; 958139571; 1322822218;
   1537002063; 1747873779; 1955562222; 2024104815; 2227730452; 2361852424;
   2428436474; 2756734187; 3204031479; 3329325298].

Definition init : list Z :=
  [1779033703; 3144134277; 1013904242; 2773480762;
   1359893119; 2600822924; 528734635; 1541459225].

Definition ssig0 (x : Z) : Z :=
  Z.lxor (Z.lxor (rotr x 7) (rotr x 18)) (Z.shiftr x 3).

Definition ssig1 (x : Z) : Z :=
  Z.lxor (Z.lxor (rotr x 17) (rotr x 19)) (Z.shiftr x 10).

Definition bsig0 (x : Z) : Z :=
  Z.lxor (Z.lxor (rotr x 2) (rotr x 13)) (rotr x 22).

Definition bsig1 (x : Z) : Z :=
  Z.lxor (Z.lxor (rotr x 6) (rotr x 11)) (rotr x 25).

Definition ch (x y z : Z) : Z :=
  Z.lxor (Z.land x y) (Z.land (not32 x) z).

Definition maj (x y z : Z) : Z :=
  Z.lxor (Z.lxor (Z.land x y) (Z.land x z)) (Z.land y z).

(** The message schedule, kept newest word first while it is built. *)
Definition extend (w : list Z) (_ : nat) : list Z :=
  add (add (add (ssig1 (nth 1 w 0)) (nth 6 w 0)) (ssig0 (nth 14 w 0)))
      (nth 15 w 0) :: w.

Definition schedule (chunk : list Z) : list Z :=
  rev (fold_left extend (seq 16 48) (rev (map of_be (Bytes.chunks 4 chunk)))).

Definition round (W : list Z) (st : list Z) (i : nat) : list Z :=
  match st with
  | [a; b; c; d; e; f; g; h] =>
      let t1 := add (add (add (add h (bsig1 e)) (ch e f g)) (nth i K 0))
                    (nth i W 0) in
      let t2 := add (bsig0 a) (maj a b c) in
      [add t1 t2; a; b; c; add d t1; e; f; g]
  | _ => st
  end.

Definition block (st : list Z) (chunk : list Z) : list Z :=
  let W := schedule chunk in
  map (fun p => add (fst p) (snd p))
      (combine st (fold_left (round W) (seq 0 64) st)).

(** [sha256.Sum256]: the 32 bytes of the digest. *)
Definition Sum256 (msg : list Z) : list Z :=
  concat (map to_be
    (fold_left block (Bytes.chunks 64 (Bytes.pad len64_be msg)) init)).

End Sha256.

Module Hmac.

Definition block_size : nat := 64.

(** [hmac.New(sha256.New, key)]: a key longer than a block is hashed
    first, then it is padded with zeros to the block size. *)
Definition block_key (key : list Z) : list Z :=
  let k := if (block_size <? length key)%nat then Sha256.Sum256 key else key in
  k ++ repeat 0 (block_size - length k)%nat.

(** [h.Write(data); h.Sum(nil)]. *)
Definition Sum (key data : list Z) : list Z :=
  let k := block_key key in
  Sha256.Sum256 (Bytes.xor_with 92 k ++
                 Sha256.Sum256 (Bytes.xor_with 54 k ++ data)).

End Hmac.

(** ** encoding/hex and strings.ToUpper *)

Module Hex.

Definition digit (n : Z) : ascii :=
  ascii_of_N (Z.to_N (if n <? 10 then 48 + n else 87 + n)).

(** [hex.EncodeToString]: two lower-case digits per byte. *)
Fixpoint EncodeToString (bs : list Z) : string :=
  match bs with
  | [] => EmptyString
  | b :: bs' =>
      String (digit (Z.shiftr b 4))
        (String (digit (Z.land b 15)) (EncodeToString bs'))
  end.

End Hex.

Module Strings.

Definition upper_byte (a : ascii) : ascii :=
  let n := N_of_ascii a in
  if ((97 <=? n) && (n <=? 122))%N then ascii_of_N (n - 32) else a.

Definition lower_byte (a : ascii) : ascii :=
  let n := N_of_ascii a in
  if ((65 <=? n) && (n <=? 90))%N then ascii_of_N (n + 32) else a.

Fixpoint map_bytes (f : ascii -> ascii) (s : string) : string :=
  match s with
  | EmptyString => EmptyString
  | String a s' => String (f a) (map_bytes f s')
  end.

(** [strings.ToUpper] on the strings [Sign] gives it: hexadecimal
    digits, or the empty string. Bytes outside a-z stay as they are. *)
Definition ToUpper (s : string) : string := map_bytes upper_byte s.

Definition ToLower (s : string) : string := map_bytes lower_byte s.

(** [strings.Index(s, sub) == 0]: [sub] is a prefix of [s]. *)
Definition HasPrefix (s sub : string) : bool := String.prefix sub s.

End Strings.

(** ** Params *)

Abbreviation Params := (gmap string string).

(** Modelled from the spec: the file declaring [Params] and its methods
    is not among the sources. The spec's ParameterSet is a mapping from
    string keys to string values with unique keys; [client.go] indexes it
    as a Go map ([params[k] = v], [range params]). [GetString] of an absent
    key is the zero value of a Go map read; the code under study reads
    only keys it has found present. *)
Definition SetString (p : Params) (k s : string) : Params := <[k := s]> p.

Definition GetString (p : Params) (k : string) : string := default ""%string (p !! k).

Definition ContainsKey (p : Params) (key : string) : bool :=
  bool_decide (is_Some (p !! key)).

(** Modelled from the spec: the constants file is not among the sources.
    The reserved signature field is the one [Sign] itself spells ["sign"];
    the status field takes the two values [SUCCESS] and [FAIL]. The method
    [Sign] keeps the name, so the key constant is [SignKey] here. *)
Definition SignKey : string := "sign".
Definition Success : string := "SUCCESS".
Definition Fail : string := "FAIL".

(** ** account.go *)

Record Account := mkAccount {
  appID : string;
  mchID : string;
  apiKey : string;
  certData : option string;   (* [None] is the nil slice *)
  isSandbox : bool
}.

Definition NewAccount (appID mchID apiKey : string) (isSanbox : bool) : Account :=
  {| appID := appID; mchID := mchID; apiKey := apiKey;
     certData := None; isSandbox := isSanbox |}.

Definition SetCertData (a : Account) (data : option string) : Account :=
  {| appID := appID a; mchID := mchID a; apiKey := apiKey a;
     certData := data; isSandbox := isSandbox a |}.

(** ** client.go *)

Record Client := mkClient {
  account : Account;
  signType : string;
  httpConnectTimeoutMs : Z;
  httpReadTimeoutMs : Z
}.

Definition SetSignType (c : Client) (signType' : string) : Client :=
  {| account := account c; signType := signType';
     httpConnectTimeoutMs := httpConnectTimeoutMs c;
     httpReadTimeoutMs := httpReadTimeoutMs c |}.

Definition SetAccount (c : Client) (a : Account) : Client :=
  {| account := a; signType := signType c;
     httpConnectTimeoutMs := httpConnectTimeoutMs c;
     httpReadTimeoutMs := httpReadTimeoutMs c |}.

(** Go's [error] values: a message made by [errors.New], or whatever the
    transport reports. *)
Definition error : Type := string.

Definition errNoCert : error := "证书数据为空".
Definition errNoReturnCode : error := "no return_code in XML".
Definition errInvalidSign : error := "invalid sign value in XML".
Definition errInvalidReturnCode : error := "return_code value is invalid in XML".

(** *** The canonical form *)

(** The first loop of [Sign]: the keys of the map, in whatever order the
    iteration [ks] yields them, without ["sign"]. *)
Definition collect_keys (ks : list string) : list string :=
  filter (fun k => k <> "sign"%string) ks.

(** [sort.Strings]: ascending byte-wise order. *)
Definition sort_Strings (ks : list string) : list string :=
  merge_sort String.le ks.

(** One turn of the second loop: what a key adds to the buffer. *)
Definition segment (params : Params) (k : string) : string :=
  if (0 <? String.length (GetString params k))%nat
  then (k ++ "=" ++ GetString params k ++ "&")%string
  else ""%string.

Fixpoint write_all (ss : list string) : string :=
  match ss with
  | [] => ""%string
  | s :: ss' => (s ++ write_all ss')%string
  end.

(** The buffer [Sign] hashes, for an iteration order [ks] of the map. *)
Definition canonical_from (ks : list string) (key : string) (params : Params) : string :=
  (write_all (map (segment params) (sort_Strings (collect_keys ks)))
   ++ "key=" ++ key)%string.

Definition keys_of (params : Params) : list string := (map_to_list params).*1.

Definition canonical (key : string) (params : Params) : string :=
  canonical_from (keys_of params) key params.

Definition bodyType : string := "application/xml; charset=utf-8".

(** What goes on the wire, and what comes back. *)
Record Request := mkRequest {
  req_cert : option string;    (* the TLS client certificate, if any *)
  req_url : string;
  req_contentType : string;
  req_body : string
}.

Inductive Reply :=
| PostFailed (err : error)     (* [h.Post] returned an error *)
| ReadFailed (err : error)     (* [ioutil.ReadAll] returned an error *)
| Replied (res : string).

(** The outside of the program during one call: the nonce that
    [nonceStr()] draws and the answer of the remote end. *)
Record World := mkWorld {
  nonceStr : string;
  http_Post : Request -> Reply
}.

(** What a POST path leaves behind: the returned pair, the caller's map
    (the paths write into it) and the requests that went out. *)
Record Posted := mkPosted {
  out_body : string;
  out_err : option error;
  out_params : Params;
  out_io : list Request
}.

(** Modelled from the spec: constants and helpers of the package that are
    declared outside [client.go] and [account.go]. Their values are not
    fixed here; everything below holds for each choice. [XmlToMap] and
    [MapToXml] are the XML codec, [pkcs12ToPem] turns the certificate
    archive and its passphrase into a TLS identity. *)
Class Package := mkPackage {
  MD5 : string;
  HMACSHA256 : string;
  MchToCashTp : string;
  DownloadBillUrl : string;
  SandboxDownloadBillUrl : string;
  DownloadFundFlowUrl : string;
  SandboxDownloadFundFlowUrl : string;
  XmlToMap : string -> Params;
  MapToXml : Params -> string;
  pkcs12ToPem : string -> string -> string
}.

Section Client.

Context {pkg : Package}.

Definition NewClient (account : Account) : Client :=
  {| account := account; signType := MD5;
     httpConnectTimeoutMs := 2000; httpReadTimeoutMs := 1000 |}.

(** The [switch c.signType] of [Sign]; [str] stays empty when no case
    matches. *)
Definition digest_hex (c : Client) (buf : string) : string :=
  if decide (signType c = MD5) then
    Hex.EncodeToString (Md5.Sum (Bytes.of_string buf))
  else if decide (signType c = HMACSHA256) then
    Hex.EncodeToString
      (Hmac.Sum (Bytes.of_string (apiKey (account c))) (Bytes.of_string buf))
  else ""%string.

Definition Sign_from (ks : list string) (c : Client) (params : Params) : string :=
  Strings.ToUpper (digest_hex c (canonical_from ks (apiKey (account c)) params)).

Definition Sign (c : Client) (params : Params) : string :=
  Sign_from (keys_of params) c params.

Definition ValidSign (c : Client) (params : Params) : bool :=
  if negb (ContainsKey params SignKey) then false
  else bool_decide (GetString params SignKey = Sign c params).


(** [payTp] is the variadic argument; [nonce] is what [nonceStr()]
    returned. The result is the caller's map after the writes. *)
Definition fillRequestData (c : Client) (params : Params)
    (payTp : list string) (nonce : string) : Params :=
  let params1 :=
    match payTp with
    | [tp] =>
        if decide (tp = MchToCashTp) then
          <["mchid"%string := mchID (account c)]>
            (<["mch_appid"%string := appID (account c)]> params)
        else
          <["sign_type"%string := signType c]>
            (<["mch_id"%string := mchID (account c)]>
              (<["appid"%string := appID (account c)]> params))
    | _ =>
        <["sign_type"%string := signType c]>
          (<["mch_id"%string := mchID (account c)]>
            (<["appid"%string := appID (account c)]> params))
    end in
  let params2 := <["nonce_str"%string := nonce]> params1 in
  <["sign"%string := Sign c params2]> params2.

Definition send (w : World) (req : Request) (p : Params) : Posted :=
  match http_Post w req with
  | PostFailed err => mkPosted "" (Some err) p [req]
  | ReadFailed err => mkPosted "" (Some err) p [req]
  | Replied res => mkPosted res None p [req]
  end.

Definition postWithoutCert (w : World) (c : Client) (url : string)
    (params : Params) : Posted :=
  let p := fillRequestData c params [] (nonceStr w) in
  send w (mkRequest None url bodyType (MapToXml p)) p.

Definition postWithCert (w : World) (c : Client) (url : string)
    (params : Params) (payTp : list string) : Posted :=
  match certData (account c) with
  | None => mkPosted "" (Some errNoCert) params []
  | Some data =>
      let cert := pkcs12ToPem data (mchID (account c)) in
      let p := fillRequestData c params payTp (nonceStr w) in
      send w (mkRequest (Some cert) url bodyType (MapToXml p)) p
  end.

(** A Go result [(Params, error)]; [None] is [nil] on either side. *)
Definition Result : Type := (option Params * option error)%type.

Definition processResponseXml (c : Client) (xmlStr : string)
    (flags : list bool) : Result :=
  let params := XmlToMap xmlStr in
  if ContainsKey params "return_code" then
    let returnCode := GetString params "return_code" in
    if decide (returnCode = Fail) then (Some params, None)
    else if decide (returnCode = Success) then
      match flags with
      | [false] => (Some params, None)
      | _ =>
          if ValidSign c params then (Some params, None)
          else (None, Some errInvalidSign)
      end
    else (None, Some errInvalidReturnCode)
  else (None, Some errNoReturnCode).

Definition DownloadBill (w : World) (c : Client) (params : Params) : Result :=
  let url := if isSandbox (account c) then SandboxDownloadBillUrl
             else DownloadBillUrl in
  let r := postWithoutCert w c url params in
  let xmlStr := out_body r in
  if Strings.HasPrefix xmlStr "<" then (Some (XmlToMap xmlStr), out_err r)
  else
    (Some (SetString (SetString (SetString ∅ "return_code" Success)
                        "return_msg" "ok") "data" xmlStr),
     out_err r).

Definition DownloadFundFlow (w : World) (c : Client) (params : Params) : Result :=
  let url := if isSandbox (account c) then SandboxDownloadFundFlowUrl
             else DownloadFundFlowUrl in
  let r := postWithCert w c url params [] in
  let xmlStr := out_body r in
  if Strings.HasPrefix xmlStr "<" then (Some (XmlToMap xmlStr), out_err r)
  else
    (Some (SetString (SetString (SetString ∅ "return_code" Success)
                        "return_msg" "ok") "data" xmlStr),
     out_err r).

End Client.

(** ** The canonical form, as the specification words it

    Section 4.1 of the specification: over the keys in sorted order, a key
    with a non-empty value contributes [key=value&], a key with an empty
    value contributes nothing, and [key=<secret>] closes the string. *)
Fixpoint canonical_spec (sorted_keys : list string) (p : Params)
    (secret : string) : string :=
  match sorted_keys with
  | [] => ("key=" ++ secret)%string
  | k :: rest =>
      match p !! k with
      | Some v =>
          if decide (v = ""%string) then canonical_spec rest p secret
          else (k ++ "=" ++ v ++ "&" ++ canonical_spec rest p secret)%string
      | None => canonical_spec rest p secret
      end
  end.

(** ** The rest of account.go and client.go *)

(** [SetCertFile]: [read] stands for [ioutil.ReadFile], which gives the
    bytes of the file or an error. *)
Definition SetCertFile (read : string -> string + error) (a : Account)
    (certPath : string) : Account * option error :=
  match read certPath with
  | inr err => (a, Some err)
  | inl data =>
      ({| appID := appID a; mchID := mchID a; apiKey := apiKey a;
          certData := Some data; isSandbox := isSandbox a |}, None)
  end.

Definition SetHttpConnectTimeoutMs (c : Client) (ms : Z) : Client :=
  {| account := account c; signType := signType c;
     httpConnectTimeoutMs := ms;
     httpReadTimeoutMs := httpReadTimeoutMs c |}.

Definition SetHttpReadTimeoutMs (c : Client) (ms : Z) : Client :=
  {| account := account c; signType := signType c;
     httpConnectTimeoutMs := httpConnectTimeoutMs c;
     httpReadTimeoutMs := ms |}.

(** Modelled from the spec: the endpoint addresses, constants of the
    package declared outside [client.go]. Each operation has a production
    and a sandbox address; their values are not fixed here. The constant
    [ShortUrl] shares its name with a method and is reached as
    [Url.ShortUrl]. *)
Module Url.

Class Table := mkTable {
  UnifiedOrderUrl : string;      SandboxUnifiedOrderUrl : string;
  MicroPayUrl : string;          SandboxMicroPayUrl : string;
  RefundUrl : string;            SandboxRefundUrl : string;
  OrderQueryUrl : string;        SandboxOrderQueryUrl : string;
  RefundQueryUrl : string;       SandboxRefundQueryUrl : string;
  ReverseUrl : string;           SandboxReverseUrl : string;
  CloseOrderUrl : string;        SandboxCloseOrderUrl : string;
  ReportUrl : string;            SandboxReportUrl : string;
  ShortUrl : string;             SandboxShortUrl : string;
  AuthCodeToOpenidUrl : string;  SandboxAuthCodeToOpenidUrl : string;
  MchToCashUrl : string;
  AuthCodeToOpenidUrlMch : string
}.

End Url.

(** [fmt.Println] of string operands: a space between two operands, a
    newline at the end. *)
Fixpoint Sprintln (args : list string) : string :=
  match args with
  | [] => String (ascii_of_nat 10) EmptyString
  | [a] => (a ++ String (ascii_of_nat 10) EmptyString)%string
  | a :: rest => (a ++ " " ++ Sprintln rest)%string
  end.

(** What a call of an endpoint leaves behind: the returned pair, the
    caller's map, the requests that went out, the lines printed. *)
Record Outcome := mkOutcome {
  returned : option Params * option error;
  params_after : Params;
  requests : list Request;
  stdout : list string
}.

(** A value of type [interface{}] as [json.Unmarshal] leaves it in a
    [map[string]interface{}]: the code reads it through the assertion
    [.(string)] only, so the content is kept for strings alone. *)
Inductive DynKind := KNil | KBool | KFloat64 | KSlice | KMap.

Inductive Dyn :=
| DString (s : string)
| DOther (kind : DynKind).

(** The outside of [getFromWx]: the answer to a GET, the decoding of
    [json.Unmarshal] into the fresh map (with its error), and the text
    [fmt] prints for such a map. *)
Record Web := mkWeb {
  http_Get : string -> Reply;
  json_Unmarshal : string -> gmap string Dyn * option error;
  Sprint_map : gmap string Dyn -> string
}.

(** A Go call that returns or panics. *)
Inductive Run (A : Type) :=
| Returns (a : A)
| Panics.

Arguments Returns {A} a.
Arguments Panics {A}.

Definition errInvalidReturn : error := "无效的返回".

Section Endpoints.

Context {pkg : Package} {urls : Url.Table}.

Definition UnifiedOrder (w : World) (c : Client) (params : Params) : Outcome :=
  let url := if isSandbox (account c) then Url.SandboxUnifiedOrderUrl
             else Url.UnifiedOrderUrl in
  let r := postWithoutCert w c url params in
  match out_err r with
  | Some err => mkOutcome (None, Some err) (out_params r) (out_io r) []
  | None => mkOutcome (processResponseXml c (out_body r) [])
              (out_params r) (out_io r) []
  end.

Definition MicroPay (w : World) (c : Client) (params : Params) : Outcome :=
  let url := if isSandbox (account c) then Url.SandboxMicroPayUrl
             else Url.MicroPayUrl in
  let r := postWithoutCert w c url params in
  match out_err r with
  | Some err => mkOutcome (None, Some err) (out_params r) (out_io r) []
  | None => mkOutcome (processResponseXml c (out_body r) [])
              (out_params r) (out_io r) []
  end.

Definition Refund (w : World) (c : Client) (params : Params) : Outcome :=
  let url := if isSandbox (account c) then Url.SandboxRefundUrl
             else Url.RefundUrl in
  let r := postWithCert w c url params [] in
  match out_err r with
  | Some err => mkOutcome (None, Some err) (out_params r) (out_io r) []
  | None => mkOutcome (processResponseXml c (out_body r) [])
              (out_params r) (out_io r) []
  end.

Definition OrderQuery (w : World) (c : Client) (params : Params) : Outcome :=
  let url := if isSandbox (account c) then Url.SandboxOrderQueryUrl
             else Url.OrderQueryUrl in
  let r := postWithoutCert w c url params in
  match out_err r with
  | Some err => mkOutcome (None, Some err) (out_params r) (out_io r) []
  | None => mkOutcome (processResponseXml c (out_body r) [])
              (out_params r) (out_io r) []
  end.

Definition RefundQuery (w : World) (c : Client) (params : Params) : Outcome :=
  let url := if isSandbox (account c) then Url.SandboxRefundQueryUrl
             else Url.RefundQueryUrl in
  let r := postWithoutCert w c url params in
  match out_err r with
  | Some err => mkOutcome (None, Some err) (out_params r) (out_io r) []
  | None => mkOutcome (processResponseXml c (out_body r) [])
              (out_params r) (out_io r) []
  end.

Definition Reverse (w : World) (c : Client) (params : Params) : Outcome :=
  let url := if isSandbox (account c) then Url.SandboxReverseUrl
             else Url.ReverseUrl in
  let r := postWithCert w c url params [] in
  match out_err r with
  | Some err => mkOutcome (None, Some err) (out_params r) (out_io r) []
  | None => mkOutcome (processResponseXml c (out_body r) [])
              (out_params r) (out_io r) []
  end.

Definition CloseOrder (w : World) (c : Client) (params : Params) : Outcome :=
  let url := if isSandbox (account c) then Url.SandboxCloseOrderUrl
             else Url.CloseOrderUrl in
  let r := postWithoutCert w c url params in
  match out_err r with
  | Some err => mkOutcome (None, Some err) (out_params r) (out_io r) []
  | None => mkOutcome (processResponseXml c (out_body r) [])
              (out_params r) (out_io r) []
  end.

Definition Report (w : World) (c : Client) (params : Params) : Outcome :=
  let url := if isSandbox (account c) then Url.SandboxReportUrl
             else Url.ReportUrl in
  let r := postWithoutCert w c url params in
  match out_err r with
  | Some err => mkOutcome (None, Some err) (out_params r) (out_io r) []
  | None => mkOutcome (processResponseXml c (out_body r) [])
              (out_params r) (out_io r) []
  end.

Definition ShortUrl (w : World) (c : Client) (params : Params) : Outcome :=
  let url := if isSandbox (account c) then Url.SandboxShortUrl
             else Url.ShortUrl in
  let r := postWithoutCert w c url params in
  match out_err r with
  | Some err => mkOutcome (None, Some err) (out_params r) (out_io r) []
  | None => mkOutcome (processResponseXml c (out_body r) [])
              (out_params r) (out_io r) []
  end.

Definition AuthCodeToOpenid (w : World) (c : Client) (params : Params) : Outcome :=
  let url := if isSandbox (account c) then Url.SandboxAuthCodeToOpenidUrl
             else Url.AuthCodeToOpenidUrl in
  let r := postWithoutCert w c url params in
  match out_err r with
  | Some err => mkOutcome (None, Some err) (out_params r) (out_io r) []
  | None => mkOutcome (processResponseXml c (out_body r) [])
              (out_params r) (out_io r) []
  end.

(** [MchToCash] has one address, passes [MchToCashTp] to the POST, prints
    on failure and asks [processResponseXml] not to check the signature. *)
Definition MchToCash (w : World) (c : Client) (params : Params) : Outcome :=
  let url := Url.MchToCashUrl in
  let r := postWithCert w c url params [MchToCashTp] in
  match out_err r with
  | Some err =>
      mkOutcome (None, Some err) (out_params r) (out_io r)
        [Sprintln ["res"%string; out_body r; err]]
  | None => mkOutcome (processResponseXml c (out_body r) [false])
              (out_params r) (out_io r) []
  end.

(** [getFromWx]: the map starts empty; [json.Unmarshal] fills it. *)
Definition getFromWx (web : Web) (url : string)
    : gmap string Dyn * option error :=
  match http_Get web url with
  | PostFailed err => (∅, Some err)
  | ReadFailed err => (∅, Some err)
  | Replied res => json_Unmarshal web res
  end.

(** The address that [fmt.Sprintf] builds in [AuthCodeToOpenidMch]. *)
Definition openid_url (c : Client) (params : Params) : string :=
  (Url.AuthCodeToOpenidUrlMch ++ "?appid=" ++ appID (account c)
   ++ "&secret=" ++ GetString params "appsecret"
   ++ "&code=" ++ GetString params "auth_code"
   ++ "&grant_type=authorization_code")%string.

(** [AuthCodeToOpenidMch]: the named results [(openID, err)], or a panic
    of the type assertion; with them the lines printed. *)
Definition AuthCodeToOpenidMch (web : Web) (c : Client) (params : Params)
    : Run (string * option error) * list string :=
  let url := openid_url c params in
  let '(res, err) := getFromWx web url in
  match err with
  | Some e =>
      (Returns (""%string, Some e),
       [Sprintln ["request url"%string; url; "res"%string; Sprint_map web res]])
  | None =>
      match res !! "openid"%string with
      | None => (Returns (""%string, Some errInvalidReturn), [])
      | Some (DString openID) => (Returns (openID, None), [])
      | Some (DOther _) => (Panics, [])
      end
  end.

(** The endpoints that hand the response to [processResponseXml] with
    the signature check on, and those that need the certificate. *)
Definition checking_endpoints : list (World -> Client -> Params -> Outcome) :=
  [UnifiedOrder; MicroPay; Refund; OrderQuery; RefundQuery; Reverse;
   CloseOrder; Report; ShortUrl; AuthCodeToOpenid].

Definition certificate_endpoints : list (World -> Client -> Params -> Outcome) :=
  [Refund; Reverse; MchToCash].

End Endpoints.

(** ** Sample data

    One choice of the package's constants, with a codec that knows a few
    documents, for running the model on concrete inputs. *)

Module Sample.

Definition failDoc : string := "<xml><return_code>FAIL</return_code></xml>".
Definition emptyDoc : string := "<xml></xml>".

Definition decode (s : string) : Params :=
  if decide (s = failDoc) then {[ "return_code"%string := Fail ]}
  else ∅.

Definition encode (p : Params) : string :=
  ("<xml>" ++ write_all (map (fun kv => "<" ++ fst kv ++ ">" ++ snd kv
                                        ++ "</" ++ fst kv ++ ">")
                             (map_to_list p)) ++ "</xml>")%string.

Definition pkg : Package :=
  {| MD5 := "MD5";
     HMACSHA256 := "HMAC-SHA256";
     MchToCashTp := "mch_to_cash";
     DownloadBillUrl := "https://api.mch.weixin.qq.com/pay/downloadbill";
     SandboxDownloadBillUrl :=
       "https://api.mch.weixin.qq.com/sandboxnew/pay/downloadbill";
     DownloadFundFlowUrl := "https://api.mch.weixin.qq.com/pay/downloadfundflow";
     SandboxDownloadFundFlowUrl :=
       "https://api.mch.weixin.qq.com/sandboxnew/pay/downloadfundflow";
     XmlToMap := decode;
     MapToXml := encode;
     pkcs12ToPem := fun data pass => data |}.

Definition acct : Account := NewAccount "wx0001" "1900000109" "k" false.

Definition client : Client := NewClient (pkg := pkg) acct.

Definition order : Params :=
  <["b"%string := ""%string]> (<["a"%string := "1"%string]> ∅).

Definition hmacClient : Client := SetSignType client (HMACSHA256 (Package := pkg)).

(** [order] carrying its own signature, written in lower case. *)
Definition lowerSigned (c : Client) : Params :=
  SetString order SignKey (Strings.ToLower (Sign (pkg := pkg) c order)).

Definition silent : World :=
  {| nonceStr := "5K8264ILTKCH16CQ2502SI8ZNMTM67VS";
     http_Post := fun _ => PostFailed "connection refused" |}.

Definition answering (res : string) : World :=
  {| nonceStr := "5K8264ILTKCH16CQ2502SI8ZNMTM67VS";
     http_Post := fun _ => Replied res |}.

End Sample.

(** A second choice of constants, whose codec knows a signed success
    document and an unsigned one. *)
Module Demo.

Definition signedDoc : string :=
  "<xml><return_code>SUCCESS</return_code><sign>0C432CDEFCA4D127DFEF3AD7C8E71D0A</sign></xml>".

Definition unsignedDoc : string := "<xml><return_code>SUCCESS</return_code></xml>".

Definition decode (s : string) : Params :=
  if decide (s = signedDoc) then
    {[ "return_code"%string := Success;
       "sign"%string := "0C432CDEFCA4D127DFEF3AD7C8E71D0A"%string ]}
  else if decide (s = unsignedDoc) then {[ "return_code"%string := Success ]}
  else Sample.decode s.

Definition pkg : Package :=
  {| MD5 := "MD5";
     HMACSHA256 := "HMAC-SHA256";
     MchToCashTp := "mch_to_cash";
     DownloadBillUrl := "https://api.mch.weixin.qq.com/pay/downloadbill";
     SandboxDownloadBillUrl :=
       "https://api.mch.weixin.qq.com/sandboxnew/pay/downloadbill";
     DownloadFundFlowUrl := "https://api.mch.weixin.qq.com/pay/downloadfundflow";
     SandboxDownloadFundFlowUrl :=
       "https://api.mch.weixin.qq.com/sandboxnew/pay/downloadfundflow";
     XmlToMap := decode;
     MapToXml := Sample.encode;
     pkcs12ToPem := fun data pass => (data ++ "#" ++ pass)%string |}.

Definition urls : Url.Table :=
  {| Url.UnifiedOrderUrl := "https://api/pay/unifiedorder";
     Url.SandboxUnifiedOrderUrl := "https://api/sandboxnew/pay/unifiedorder";
     Url.MicroPayUrl := "https://api/pay/micropay";
     Url.SandboxMicroPayUrl := "https://api/sandboxnew/pay/micropay";
     Url.RefundUrl := "https://api/secapi/pay/refund";
     Url.SandboxRefundUrl := "https://api/sandboxnew/secapi/pay/refund";
     Url.OrderQueryUrl := "https://api/pay/orderquery";
     Url.SandboxOrderQueryUrl := "https://api/sandboxnew/pay/orderquery";
     Url.RefundQueryUrl := "https://api/pay/refundquery";
     Url.SandboxRefundQueryUrl := "https://api/sandboxnew/pay/refundquery";
     Url.ReverseUrl := "https://api/secapi/pay/reverse";
     Url.SandboxReverseUrl := "https://api/sandboxnew/secapi/pay/reverse";
     Url.CloseOrderUrl := "https://api/pay/closeorder";
     Url.SandboxCloseOrderUrl := "https://api/sandboxnew/pay/closeorder";
     Url.ReportUrl := "https://api/payitil/report";
     Url.SandboxReportUrl := "https://api/sandboxnew/payitil/report";
     Url.ShortUrl := "https://api/tools/shorturl";
     Url.SandboxShortUrl := "https://api/sandboxnew/tools/shorturl";
     Url.AuthCodeToOpenidUrl := "https://api/tools/authcodetoopenid";
     Url.SandboxAuthCodeToOpenidUrl := "https://api/sandboxnew/tools/authcodetoopenid";
     Url.MchToCashUrl := "https://api/mmpaymkttransfers/promotion/transfers";
     Url.AuthCodeToOpenidUrlMch := "https://api/sns/oauth2/access_token" |}.

Definition acct : Account := NewAccount "wx0001" "1900000109" "k" false.

Definition sandboxAcct : Account := NewAccount "wx0001" "1900000109" "k" true.

Definition certAcct : Account := SetCertData sandboxAcct (Some "PKCS12"%string).

Definition client : Client := NewClient (pkg := pkg) acct.

Definition certClient : Client := NewClient (pkg := pkg) certAcct.

Definition disk (path : string) : string + error :=
  if decide (path = "cert/apiclient_cert.p12"%string) then inl "PKCS12"%string
  else inr "open: no such file or directory"%string.

Definition web (openid : option Dyn) : Web :=
  {| http_Get := fun _ => Replied "{}";
     json_Unmarshal := fun _ =>
       (match openid with
        | Some v => {[ "openid"%string := v ]}
        | None => ∅
        end, None);
     Sprint_map := fun _ => "map[]"%string |}.

End Demo.

(** * Properties *)

(** Known answers, as the packages' own tests have them. *)
Example md5_abc :
  Hex.EncodeToString (Md5.Sum (Bytes.of_string "abc"))
  = "900150983cd24fb0d6963f7d28e17f72"%string.
Proof. vm_compute. reflexivity. Qed.

Example sha256_abc :
  Hex.EncodeToString (Sha256.Sum256 (Bytes.of_string "abc"))
  = "ba7816bf8f01cfea414140de5dae2223b00361a396177a9cb410ff61f20015ad"%string.
Proof. vm_compute. reflexivity. Qed.

Example hmac_sha256_fox :
  Hex.EncodeToString
    (Hmac.Sum (Bytes.of_string "key")
       (Bytes.of_string "The quick brown fox jumps over the lazy dog"))
  = "f7bc83f430538424b13298e6aa6fb143ef4d59a14946175997479dbc2d1a3cd8"%string.
Proof. vm_compute. reflexivity. Qed.


(** ** The canonical form *)

Section Canonical.

Implicit Types (p : Params) (k key : string) (ks : list string).

Lemma elem_of_collect_keys ks k :
  k ∈ collect_keys ks <-> k <> "sign"%string /\ k ∈ ks.
Proof.
  unfold collect_keys.
  apply (list_elem_of_filter (fun k' => k' <> "sign"%string)).
Qed.

Lemma NoDup_collect_keys ks : NoDup ks -> NoDup (collect_keys ks).
Proof. intros Hnd. unfold collect_keys. by apply NoDup_filter. Qed.

Lemma elem_of_keys_of p k : k ∈ keys_of p <-> is_Some (p !! k).
Proof.
  unfold keys_of. rewrite list_elem_of_fmap. split.
  - intros [[k' v] [-> Hin]]. apply elem_of_map_to_list in Hin. by exists v.
  - intros [v Hv]. exists (k, v). split; [done|]. by apply elem_of_map_to_list.
Qed.

Lemma NoDup_keys_of p : NoDup (keys_of p).
Proof. apply NoDup_fst_map_to_list. Qed.

Lemma Sorted_sort_Strings ks : Sorted String.le (sort_Strings ks).
Proof. apply Sorted_merge_sort, _. Qed.

Lemma sort_Strings_Permutation ks : sort_Strings ks ≡ₚ ks.
Proof. apply merge_sort_Permutation. Qed.

Lemma elem_of_sort_Strings ks k : k ∈ sort_Strings ks <-> k ∈ ks.
Proof. by rewrite sort_Strings_Permutation. Qed.

(** A sorted list of keys is determined by its elements: the order in
    which the map was iterated is forgotten by [sort.Strings]. *)
Lemma sort_Strings_unique ks1 ks2 :
  ks1 ≡ₚ ks2 -> sort_Strings ks1 = sort_Strings ks2.
Proof.
  intros Hp. apply (Sorted_unique String.le).
  - apply Sorted_sort_Strings.
  - apply Sorted_sort_Strings.
  - by rewrite !sort_Strings_Permutation.
Qed.

Lemma sort_Strings_sorted_id ks : Sorted String.le ks -> sort_Strings ks = ks.
Proof.
  intros Hs. apply (Sorted_unique String.le); [apply Sorted_sort_Strings|done|].
  apply sort_Strings_Permutation.
Qed.

Lemma segment_ext p1 p2 k : p1 !! k = p2 !! k -> segment p1 k = segment p2 k.
Proof. intros Heq. unfold segment, GetString. by rewrite Heq. Qed.

Lemma map_segment_ext p1 p2 ks :
  (forall k, k ∈ ks -> p1 !! k = p2 !! k) ->
  map (segment p1) ks = map (segment p2) ks.
Proof.
  induction ks as [|k ks IH]; intros Heq; [done|]. simpl. f_equal.
  - apply segment_ext, Heq. by left.
  - apply IH. intros k' Hin. apply Heq. by right.
Qed.

(** The buffer depends on the keys other than ["sign"] and on their
    values, and on nothing else. *)
Lemma canonical_from_ext ks1 ks2 p1 p2 key :
  NoDup ks1 -> NoDup ks2 ->
  (forall k, k <> "sign"%string -> (k ∈ ks1 <-> k ∈ ks2)) ->
  (forall k, k <> "sign"%string -> p1 !! k = p2 !! k) ->
  canonical_from ks1 key p1 = canonical_from ks2 key p2.
Proof.
  intros Hnd1 Hnd2 Hks Hp. unfold canonical_from.
  assert (Hsort : sort_Strings (collect_keys ks1) = sort_Strings (collect_keys ks2)).
  { apply sort_Strings_unique, NoDup_Permutation; auto using NoDup_collect_keys.
    intros k. rewrite !elem_of_collect_keys.
    split; intros [Hne Hin]; (split; [done|]); by apply Hks. }
  rewrite Hsort. do 2 f_equal. apply map_segment_ext.
  intros k Hin. apply Hp.
  apply elem_of_sort_Strings, elem_of_collect_keys in Hin. tauto.
Qed.

Lemma canonical_ext p1 p2 key :
  (forall k, k <> "sign"%string -> p1 !! k = p2 !! k) ->
  canonical key p1 = canonical key p2.
Proof.
  intros Hp. apply canonical_from_ext; auto using NoDup_keys_of.
  intros k Hk. rewrite !elem_of_keys_of, (Hp k Hk). done.
Qed.

(** Any iteration order of the map gives the same buffer. *)
Lemma canonical_from_order ks p key :
  ks ≡ₚ keys_of p -> canonical_from ks key p = canonical key p.
Proof.
  intros Hperm. apply canonical_from_ext; auto using NoDup_keys_of.
  - rewrite Hperm. apply NoDup_keys_of.
  - intros k _. by rewrite Hperm.
Qed.

Lemma string_app_assoc (s1 s2 s3 : string) :
  ((s1 ++ s2) ++ s3 = s1 ++ (s2 ++ s3))%string.
Proof.
  induction s1 as [|a s1 IH]; [done|].
  change (String a ((s1 ++ s2) ++ s3) = String a (s1 ++ (s2 ++ s3)))%string.
  by rewrite IH.
Qed.

Lemma segment_lookup p k :
  segment p k =
    match p !! k with
    | Some v => if decide (v = ""%string) then ""%string
                else (k ++ "=" ++ v ++ "&")%string
    | None => ""%string
    end.
Proof.
  unfold segment, GetString.
  by destruct (p !! k) as [[|a v]|].
Qed.

(** The two loops of [Sign] against the wording of the specification. *)
Lemma write_all_canonical_spec ks p key :
  (write_all (map (segment p) ks) ++ "key=" ++ key)%string
  = canonical_spec ks p key.
Proof.
  induction ks as [|k ks IH]; [done|].
  cbn [map write_all canonical_spec].
  rewrite string_app_assoc, IH, segment_lookup.
  destruct (p !! k) as [v|]; [|done].
  destruct (decide (v = ""%string)); [done|].
  by rewrite !string_app_assoc.
Qed.

End Canonical.

(** ** Signing and verifying *)

Section Signing.

Context {pkg : Package}.
Implicit Types (c : Client) (p : Params) (k v : string).

Lemma Sign_ext c p1 p2 :
  (forall k, k <> "sign"%string -> p1 !! k = p2 !! k) ->
  Sign c p1 = Sign c p2.
Proof.
  intros Hp. unfold Sign, Sign_from. do 2 f_equal. by apply canonical_ext.
Qed.

Lemma Sign_insert_sign c p v : Sign c (<["sign"%string := v]> p) = Sign c p.
Proof. apply Sign_ext. intros k Hk. by rewrite lookup_insert_ne. Qed.

Lemma Sign_delete_sign c p : Sign c (delete "sign"%string p) = Sign c p.
Proof. apply Sign_ext. intros k Hk. by rewrite lookup_delete_ne. Qed.

(** The map's iteration order does not reach the signature. *)
Lemma Sign_from_order ks c p : ks ≡ₚ keys_of p -> Sign_from ks c p = Sign c p.
Proof.
  intros Hperm. unfold Sign, Sign_from. do 2 f_equal.
  by apply canonical_from_order.
Qed.

Lemma ValidSign_true_iff c p :
  ValidSign c p = true <-> p !! "sign"%string = Some (Sign c p).
Proof.
  unfold ValidSign, ContainsKey, GetString, SignKey.
  destruct (p !! "sign"%string) as [v|] eqn:Hv; simpl.
  - rewrite bool_decide_eq_true. split; congruence.
  - split; congruence.
Qed.

(** C8: [Sign] does not look at the ["sign"] field. Whatever value [v]
    is stored there, the signature is the one of the map without the
    field, and also the one of the map as it was; so signing a map that
    already carries its signature gives that signature again. *)
Theorem Sign_agnostic_to_sign_field c p v :
  Sign c (<["sign"%string := v]> p) = Sign c (delete "sign"%string p)
  /\ Sign c (<["sign"%string := v]> p) = Sign c p
  /\ Sign c (<["sign"%string := Sign c p]> p) = Sign c p.
Proof.
  rewrite !Sign_insert_sign, Sign_delete_sign. done.
Qed.

(** C1: sign, store the signature under ["sign"], verify: [ValidSign]
    answers true, with [signType] either [MD5] or [HMACSHA256]. *)
Theorem ValidSign_after_Sign c p :
  signType c = MD5 \/ signType c = HMACSHA256 ->
  ValidSign c (SetString p SignKey (Sign c p)) = true.
Proof.
  intros _. apply ValidSign_true_iff. unfold SetString, SignKey.
  by rewrite lookup_insert_eq, Sign_insert_sign.
Qed.

Lemma ToUpper_empty : Strings.ToUpper "" = ""%string.
Proof. reflexivity. Qed.

(** C9: with a [signType] that is neither [MD5] nor [HMACSHA256], no
    case of the switch is taken and [Sign] returns the empty string;
    there is no error to report, [Sign] returns a string only. *)
Theorem Sign_unknown_signType c p (s : string) :
  s <> MD5 -> s <> HMACSHA256 ->
  Sign (SetSignType c s) p = ""%string.
Proof.
  intros Hmd5 Hhmac. unfold Sign, Sign_from, digest_hex. simpl.
  rewrite !decide_False by done. apply ToUpper_empty.
Qed.

(** C2: the string [Sign] hashes. There is a list of keys that holds
    exactly the keys of the map other than ["sign"], each once, in
    ascending byte-wise order, such that the hashed string is, for each
    of these keys in turn, [key=value&] when the value is not empty and
    nothing when it is, followed by [key=<apiKey>]; and the signature is
    the upper-cased hexadecimal digest of that string. The map
    [{a: 1, b: (empty)}] with the secret [k] gives [a=1&key=k]. *)
Theorem Sign_hashes_canonical_form c p :
  (exists ks : list string,
      (forall k, k ∈ ks <-> is_Some (p !! k) /\ k <> "sign"%string)
      /\ NoDup ks
      /\ Sorted String.le ks
      /\ canonical (apiKey (account c)) p
         = canonical_spec ks p (apiKey (account c))
      /\ Sign c p
         = Strings.ToUpper
             (digest_hex c (canonical_spec ks p (apiKey (account c)))))
  /\ canonical "k" (<["b"%string := ""%string]> (<["a"%string := "1"%string]> ∅))
     = "a=1&key=k"%string.
Proof.
  split; [|by vm_compute].
  exists (sort_Strings (collect_keys (keys_of p))).
  assert (Hcan : canonical (apiKey (account c)) p
                 = canonical_spec (sort_Strings (collect_keys (keys_of p))) p
                     (apiKey (account c))).
  { unfold canonical, canonical_from. apply write_all_canonical_spec. }
  split; [|split; [|split; [|split]]].
  - intros k.
    rewrite elem_of_sort_Strings, elem_of_collect_keys, elem_of_keys_of. tauto.
  - rewrite sort_Strings_Permutation.
    apply NoDup_collect_keys, NoDup_keys_of.
  - apply Sorted_sort_Strings.
  - exact Hcan.
  - unfold Sign, Sign_from. by rewrite <- Hcan.
Qed.

Lemma upper_byte_idemp (a : ascii) :
  Strings.upper_byte (Strings.upper_byte a) = Strings.upper_byte a.
Proof. by destruct a as [[] [] [] [] [] [] [] []]. Qed.

Lemma ToUpper_idemp (s : string) :
  Strings.ToUpper (Strings.ToUpper s) = Strings.ToUpper s.
Proof.
  induction s as [|a s IH]; [done|]. unfold Strings.ToUpper in *. simpl.
  by rewrite upper_byte_idemp, IH.
Qed.

Lemma ToUpper_Sign c p : Strings.ToUpper (Sign c p) = Sign c p.
Proof. unfold Sign, Sign_from. apply ToUpper_idemp. Qed.

(** C4, as the code has it: the comparison in [ValidSign] is exact.
    Only the computed side is upper-cased (by [Sign]); the stored value
    is compared as it is. [ValidSign] accepts if and only if the
    ["sign"] field is present and equal, byte for byte, to the
    upper-case signature. *)
Theorem ValidSign_compares_exactly c p :
  Strings.ToUpper (Sign c p) = Sign c p
  /\ (ValidSign c p = true <->
      exists v, p !! "sign"%string = Some v /\ v = Sign c p).
Proof.
  split; [apply ToUpper_Sign|].
  rewrite ValidSign_true_iff. split.
  - intros Hv. by exists (Sign c p).
  - by intros [v [-> ->]].
Qed.

End Signing.

(** ** Building and sending requests, reading responses *)

Section Requests.

Context {pkg : Package}.
Implicit Types (w : World) (c : Client) (p : Params) (k url : string).

(** The key set of a map built by successive writes. *)
Ltac dom_of_inserts :=
  rewrite !dom_insert_L; apply set_eq; intros ?;
  rewrite !elem_of_union, !elem_of_singleton; tauto.

(** A key outside a literal set differs from each of its members. *)
Ltac fresh_key H :=
  rewrite !not_elem_of_union, !not_elem_of_singleton in H;
  repeat match type of H with _ /\ _ => destruct H as [H ?] end.

(** C5: what [fillRequestData] writes. With any variadic argument other
    than the single value [MchToCashTp], the keys of the result are those
    of the input together with [appid], [mch_id], [sign_type],
    [nonce_str] and [sign], and every other key keeps its value. With
    [MchToCashTp] they are [mch_appid], [mchid], [nonce_str] and [sign];
    [sign_type] is left as the caller had it. In both modes [sign] holds
    the signature of the final map without its [sign] field, and the
    result passes [ValidSign]. *)
Theorem fillRequestData_fields c p (nonce : string) :
  (forall payTp : list string,
      payTp <> [MchToCashTp] ->
      let r := fillRequestData c p payTp nonce in
      dom r = {[ "appid"; "mch_id"; "sign_type"; "nonce_str"; "sign" ]}%string ∪ dom p
      /\ (forall k, k ∉ ({[ "appid"; "mch_id"; "sign_type"; "nonce_str"; "sign" ]}%string
                          : gset string) -> r !! k = p !! k)
      /\ r !! "appid"%string = Some (appID (account c))
      /\ r !! "mch_id"%string = Some (mchID (account c))
      /\ r !! "sign_type"%string = Some (signType c)
      /\ r !! "nonce_str"%string = Some nonce
      /\ r !! "sign"%string = Some (Sign c (delete "sign"%string r))
      /\ ValidSign c r = true)
  /\ (let r := fillRequestData c p [MchToCashTp] nonce in
      dom r = {[ "mch_appid"; "mchid"; "nonce_str"; "sign" ]}%string ∪ dom p
      /\ (forall k, k ∉ ({[ "mch_appid"; "mchid"; "nonce_str"; "sign" ]}%string
                          : gset string) -> r !! k = p !! k)
      /\ r !! "sign_type"%string = p !! "sign_type"%string
      /\ r !! "mch_appid"%string = Some (appID (account c))
      /\ r !! "mchid"%string = Some (mchID (account c))
      /\ r !! "nonce_str"%string = Some nonce
      /\ r !! "sign"%string = Some (Sign c (delete "sign"%string r))
      /\ ValidSign c r = true).
Proof.
  split.
  - intros payTp Hstd r.
    assert (Hr : r = <["sign"%string :=
                         Sign c (<["nonce_str"%string := nonce]>
                           (<["sign_type"%string := signType c]>
                             (<["mch_id"%string := mchID (account c)]>
                               (<["appid"%string := appID (account c)]> p))))]>
                       (<["nonce_str"%string := nonce]>
                         (<["sign_type"%string := signType c]>
                           (<["mch_id"%string := mchID (account c)]>
                             (<["appid"%string := appID (account c)]> p))))).
    { subst r. unfold fillRequestData.
      destruct payTp as [|tp [|tp' rest]]; try done.
      destruct (decide (tp = MchToCashTp)) as [->|]; done. }
    clearbody r. subst r.
    repeat split.
    + dom_of_inserts.
    + intros k Hk. fresh_key Hk. by rewrite !lookup_insert_ne by done.
    + by rewrite !lookup_insert_ne by done; rewrite lookup_insert_eq.
    + by rewrite !lookup_insert_ne by done; rewrite lookup_insert_eq.
    + by rewrite !lookup_insert_ne by done; rewrite lookup_insert_eq.
    + by rewrite !lookup_insert_ne by done; rewrite lookup_insert_eq.
    + by rewrite lookup_insert_eq, Sign_delete_sign, Sign_insert_sign.
    + apply ValidSign_true_iff.
      by rewrite lookup_insert_eq, Sign_insert_sign.
  - intros r. subst r. unfold fillRequestData.
    rewrite decide_True by done.
    repeat split.
    + dom_of_inserts.
    + intros k Hk. fresh_key Hk. by rewrite !lookup_insert_ne by done.
    + by rewrite !lookup_insert_ne by done.
    + by rewrite !lookup_insert_ne by done; rewrite lookup_insert_eq.
    + by rewrite !lookup_insert_ne by done; rewrite lookup_insert_eq.
    + by rewrite !lookup_insert_ne by done; rewrite lookup_insert_eq.
    + by rewrite lookup_insert_eq, Sign_delete_sign, Sign_insert_sign.
    + apply ValidSign_true_iff.
      by rewrite lookup_insert_eq, Sign_insert_sign.
Qed.

(** C6: without certificate data [postWithCert] returns the empty body
    and an error at once: no request goes out, on either path, and the
    caller's map is as it was. *)
Theorem postWithCert_requires_certificate w c url p (payTp : list string) :
  certData (account c) = None ->
  postWithCert w c url p payTp = mkPosted "" (Some errNoCert) p [].
Proof. intros Hnil. unfold postWithCert. by rewrite Hnil. Qed.

(** C3: when [processResponseXml] returns an error. The opt-out of
    the check is the variadic argument being the single value [false];
    every other argument list asks for the check. *)
Theorem processResponseXml_error_iff c (xmlStr : string) (flags : list bool) :
  let params := XmlToMap xmlStr in
  let r := processResponseXml c xmlStr flags in
  (r.2 <> None <->
     params !! "return_code"%string = None
     \/ (exists v, params !! "return_code"%string = Some v
                   /\ v <> Success /\ v <> Fail)
     \/ (params !! "return_code"%string = Some Success
         /\ flags <> [false] /\ ValidSign c params = false))
  /\ (r.2 <> None -> r.1 = None)
  /\ (r.2 = None -> r = (Some params, None))
  /\ (params !! "return_code"%string = Some Fail -> r = (Some params, None))
  /\ (params !! "return_code"%string = Some Success -> flags = [false] ->
      r = (Some params, None)).
Proof.
  intros params r. subst r. unfold processResponseXml. fold params.
  unfold ContainsKey, GetString.
  destruct (params !! "return_code"%string) as [v|] eqn:Hrc; simpl.
  2: { repeat split; try done. intros _. by left. }
  destruct (decide (v = Fail)) as [->|Hfail]; simpl.
  { repeat split; try done.
    intros [|[(v & Hv & Hs & Hf)|(Hv & _)]]; [done| |done].
    by simplify_eq. }
  destruct (decide (v = Success)) as [->|Hsucc]; simpl.
  2: { repeat split; try done; try congruence.
       intros _. right. left. by exists v. }
  destruct flags as [|[] [|b rest]]; simpl;
    try (destruct (ValidSign c params) eqn:Hvalid; simpl);
    repeat split; try done;
    try (intros [|[(v & Hv & Hs & Hf)|(_ & Hfl & Hvs)]]; by simplify_eq);
    try (intros _; right; right; done).
Qed.

Lemma HasPrefix_lt (s : string) :
  Strings.HasPrefix s "<" = true <-> exists rest, s = String "<"%char rest.
Proof.
  unfold Strings.HasPrefix. destruct s as [|a s].
  - split; [done|]. by intros [? ?].
  - cbn [String.prefix]. destruct (ascii_dec "<" a) as [<-|Hne].
    + split; [by exists s|]. intros _. by destruct s.
    + split; [done|]. intros [rest Heq]. by simplify_eq.
Qed.

Lemma synthetic_map (payload : string) :
  SetString (SetString (SetString ∅ "return_code" Success) "return_msg" "ok")
    "data" payload
  = ({[ "return_code" := Success; "return_msg" := "ok"; "data" := payload ]}%string
      : Params).
Proof.
  unfold SetString. apply map_eq. intros k.
  destruct (decide (k = "data"%string)) as [->|Hd];
    [by rewrite lookup_insert_eq, !lookup_insert_ne by done;
        rewrite lookup_singleton_eq|].
  destruct (decide (k = "return_msg"%string)) as [->|Hm];
    [by rewrite !lookup_insert_ne by done; rewrite !lookup_insert_eq|].
  destruct (decide (k = "return_code"%string)) as [->|Hc];
    [by rewrite !lookup_insert_ne by done; rewrite !lookup_insert_eq|].
  rewrite !lookup_insert_ne by done.
  by rewrite lookup_empty, lookup_singleton_ne.
Qed.

Lemma DownloadBill_unfold w c p :
  let r := postWithoutCert w c
             (if isSandbox (account c) then SandboxDownloadBillUrl
              else DownloadBillUrl) p in
  DownloadBill w c p =
    (Some (if Strings.HasPrefix (out_body r) "<" then XmlToMap (out_body r)
           else {[ "return_code" := Success; "return_msg" := "ok";
                   "data" := out_body r ]}%string),
     out_err r).
Proof.
  intros r. unfold DownloadBill. fold r. rewrite synthetic_map.
  by destruct (Strings.HasPrefix (out_body r) "<").
Qed.

Lemma DownloadFundFlow_unfold w c p :
  let r := postWithCert w c
             (if isSandbox (account c) then SandboxDownloadFundFlowUrl
              else DownloadFundFlowUrl) p [] in
  DownloadFundFlow w c p =
    (Some (if Strings.HasPrefix (out_body r) "<" then XmlToMap (out_body r)
           else {[ "return_code" := Success; "return_msg" := "ok";
                   "data" := out_body r ]}%string),
     out_err r).
Proof.
  intros r. unfold DownloadFundFlow. fold r. rewrite synthetic_map.
  by destruct (Strings.HasPrefix (out_body r) "<").
Qed.

(** C7: the two bulk-download endpoints look at the first byte of the
    body that their POST returned. A body that begins with [<] is decoded
    by [XmlToMap] and that map is returned; any other body is returned
    inside the map [{return_code: SUCCESS, return_msg: ok, data: body}].
    The status field and the signature are not looked at:
    [processResponseXml] takes no part. *)
Theorem Download_branches_on_first_byte w c p :
  let rb := postWithoutCert w c
              (if isSandbox (account c) then SandboxDownloadBillUrl
               else DownloadBillUrl) p in
  let rf := postWithCert w c
              (if isSandbox (account c) then SandboxDownloadFundFlowUrl
               else DownloadFundFlowUrl) p [] in
  ((exists rest, out_body rb = String "<"%char rest) ->
     DownloadBill w c p = (Some (XmlToMap (out_body rb)), out_err rb))
  /\ ((forall rest, out_body rb <> String "<"%char rest) ->
     DownloadBill w c p =
       (Some {[ "return_code" := Success; "return_msg" := "ok";
                "data" := out_body rb ]}%string, out_err rb))
  /\ ((exists rest, out_body rf = String "<"%char rest) ->
     DownloadFundFlow w c p = (Some (XmlToMap (out_body rf)), out_err rf))
  /\ ((forall rest, out_body rf <> String "<"%char rest) ->
     DownloadFundFlow w c p =
       (Some {[ "return_code" := Success; "return_msg" := "ok";
                "data" := out_body rf ]}%string, out_err rf)).
Proof.
  intros rb rf.
  pose proof (DownloadBill_unfold w c p) as Hb.
  pose proof (DownloadFundFlow_unfold w c p) as Hf.
  cbv zeta in Hb, Hf. fold rb in Hb. fold rf in Hf.
  rewrite Hb, Hf. clear Hb Hf.
  repeat split.
  - intros Hlt. apply HasPrefix_lt in Hlt. by rewrite Hlt.
  - intros Hno. destruct (Strings.HasPrefix (out_body rb) "<") eqn:Hpre; [|done].
    apply HasPrefix_lt in Hpre as [rest Hrest]. by destruct (Hno rest).
  - intros Hlt. apply HasPrefix_lt in Hlt. by rewrite Hlt.
  - intros Hno. destruct (Strings.HasPrefix (out_body rf) "<") eqn:Hpre; [|done].
    apply HasPrefix_lt in Hpre as [rest Hrest]. by destruct (Hno rest).
Qed.

(** A POST path that reports an error returns the empty body. *)
Lemma send_error_empty w (req : Request) p (e : error) :
  out_err (send w req p) = Some e -> out_body (send w req p) = ""%string.
Proof. unfold send. by destruct (http_Post w req). Qed.

Lemma postWithoutCert_error_empty w c url p (e : error) :
  out_err (postWithoutCert w c url p) = Some e ->
  out_body (postWithoutCert w c url p) = ""%string.
Proof. apply send_error_empty. Qed.

Lemma postWithCert_error_empty w c url p (payTp : list string) (e : error) :
  out_err (postWithCert w c url p payTp) = Some e ->
  out_body (postWithCert w c url p payTp) = ""%string.
Proof.
  unfold postWithCert. destruct (certData (account c)); [|done].
  apply send_error_empty.
Qed.

(** C10: when the POST under [DownloadBill] or [DownloadFundFlow] fails
    with the error [e], the map returned is not nil: it is
    [{return_code: SUCCESS, return_msg: ok, data: (empty)}], and it comes
    with [e]. *)
Theorem Download_failed_post_returns_success_map w c p (e : error) :
  (out_err (postWithoutCert w c
              (if isSandbox (account c) then SandboxDownloadBillUrl
               else DownloadBillUrl) p) = Some e ->
   DownloadBill w c p =
     (Some {[ "return_code" := Success; "return_msg" := "ok";
              "data" := "" ]}%string, Some e))
  /\ (out_err (postWithCert w c
                 (if isSandbox (account c) then SandboxDownloadFundFlowUrl
                  else DownloadFundFlowUrl) p []) = Some e ->
      DownloadFundFlow w c p =
        (Some {[ "return_code" := Success; "return_msg" := "ok";
                 "data" := "" ]}%string, Some e)).
Proof.
  split; intros Herr.
  - pose proof (DownloadBill_unfold w c p) as Hb. cbv zeta in Hb.
    rewrite Hb, Herr.
    by rewrite (postWithoutCert_error_empty _ _ _ _ _ Herr).
  - pose proof (DownloadFundFlow_unfold w c p) as Hf. cbv zeta in Hf.
    rewrite Hf, Herr.
    by rewrite (postWithCert_error_empty _ _ _ _ _ _ Herr).
Qed.

End Requests.

(** ** The model at work on the sample data *)

Section Instances.

Existing Instance Sample.pkg.

Lemma ValidSign_after_Sign_witness :
  (signType Sample.client = MD5
   /\ ValidSign Sample.client
        (SetString Sample.order SignKey (Sign Sample.client Sample.order)) = true)
  /\ (signType Sample.hmacClient = HMACSHA256
      /\ ValidSign Sample.hmacClient
           (SetString Sample.order SignKey
              (Sign Sample.hmacClient Sample.order)) = true).
Proof.
  split; (split; [reflexivity|]).
  - apply (ValidSign_after_Sign Sample.client Sample.order).
    left. reflexivity.
  - apply (ValidSign_after_Sign Sample.hmacClient Sample.order).
    right. reflexivity.
Defined.

(** C4 as it is worded fails: the stored value here is the right
    signature in lower case, it differs from what [Sign] computes in
    letter case only, and [ValidSign] rejects it, under MD5 and under
    HMAC-SHA256. *)
Lemma ValidSign_rejects_lower_case :
  (GetString (Sample.lowerSigned Sample.client) "sign"
     = "affdcc88244c83f871bfe4854be9c1a5"%string
   /\ Sign Sample.client (Sample.lowerSigned Sample.client)
     = "AFFDCC88244C83F871BFE4854BE9C1A5"%string
   /\ Strings.ToUpper (GetString (Sample.lowerSigned Sample.client) "sign")
     = Sign Sample.client (Sample.lowerSigned Sample.client)
   /\ ValidSign Sample.client (Sample.lowerSigned Sample.client) = false)
  /\ (Strings.ToUpper (GetString (Sample.lowerSigned Sample.hmacClient) "sign")
        = Sign Sample.hmacClient (Sample.lowerSigned Sample.hmacClient)
      /\ ValidSign Sample.hmacClient (Sample.lowerSigned Sample.hmacClient)
         = false).
Proof. vm_compute. repeat split. Qed.

Lemma Sign_unknown_signType_witness :
  "SHA1"%string <> MD5 /\ "SHA1"%string <> HMACSHA256
  /\ Sign (SetSignType Sample.client "SHA1") Sample.order = ""%string.
Proof.
  assert (H1 : "SHA1"%string <> MD5) by (vm_compute; discriminate).
  assert (H2 : "SHA1"%string <> HMACSHA256) by (vm_compute; discriminate).
  split; [exact H1|]. split; [exact H2|].
  exact (Sign_unknown_signType Sample.client Sample.order "SHA1" H1 H2).
Defined.

Lemma fillRequestData_fields_witness :
  ([] : list string) <> [MchToCashTp]
  /\ dom (fillRequestData Sample.client Sample.order [] "n")
     = {[ "appid"; "mch_id"; "sign_type"; "nonce_str"; "sign" ]}%string
         ∪ dom Sample.order
  /\ ValidSign Sample.client
       (fillRequestData Sample.client Sample.order [] "n") = true
  /\ ValidSign Sample.client
       (fillRequestData Sample.client Sample.order [MchToCashTp] "n") = true.
Proof.
  assert (Hstd : ([] : list string) <> [MchToCashTp]) by discriminate.
  split; [exact Hstd|].
  destruct (fillRequestData_fields Sample.client Sample.order "n")
    as [Hfill Hmch].
  destruct (Hfill [] Hstd) as (Hdom & _ & _ & _ & _ & _ & _ & Hvalid).
  destruct Hmch as (_ & _ & _ & _ & _ & _ & _ & Hvalid').
  split; [exact Hdom|]. split; [exact Hvalid|exact Hvalid'].
Defined.

Lemma postWithCert_requires_certificate_witness :
  certData (account Sample.client) = None
  /\ postWithCert (Sample.answering "ok") Sample.client "https://example/refund"
       Sample.order []
     = mkPosted "" (Some errNoCert) Sample.order [].
Proof.
  split; [reflexivity|].
  apply (postWithCert_requires_certificate (Sample.answering "ok")
           Sample.client "https://example/refund" Sample.order []).
  reflexivity.
Defined.

(** A failure document goes through without a signature; a document
    without status field does not. *)
Lemma processResponseXml_error_iff_witness :
  XmlToMap Sample.failDoc !! "return_code"%string = Some Fail
  /\ processResponseXml Sample.client Sample.failDoc []
     = (Some (XmlToMap Sample.failDoc), None)
  /\ (processResponseXml Sample.client Sample.emptyDoc []).2 <> None.
Proof.
  assert (Hfail : XmlToMap Sample.failDoc !! "return_code"%string = Some Fail)
    by (vm_compute; reflexivity).
  split; [exact Hfail|].
  destruct (processResponseXml_error_iff Sample.client Sample.failDoc [])
    as (_ & _ & _ & Hf & _).
  split; [exact (Hf Hfail)|].
  destruct (processResponseXml_error_iff Sample.client Sample.emptyDoc [])
    as (Hiff & _).
  apply Hiff. left. vm_compute. reflexivity.
Defined.

(** The decoded error document is returned although it has no status
    field, which [processResponseXml] would refuse. *)
Lemma Download_branches_on_first_byte_witness :
  DownloadBill (Sample.answering Sample.emptyDoc) Sample.client Sample.order
    = (Some (XmlToMap Sample.emptyDoc), None)
  /\ DownloadBill (Sample.answering "date,amount") Sample.client Sample.order
    = (Some {[ "return_code" := Success; "return_msg" := "ok";
               "data" := "date,amount" ]}%string, None).
Proof.
  split.
  - destruct (Download_branches_on_first_byte
                (Sample.answering Sample.emptyDoc) Sample.client Sample.order)
      as (Hxml & _).
    apply Hxml. exists "xml></xml>"%string. reflexivity.
  - destruct (Download_branches_on_first_byte
                (Sample.answering "date,amount") Sample.client Sample.order)
      as (_ & Hraw & _).
    apply Hraw. intros rest. discriminate.
Defined.

Lemma Download_failed_post_returns_success_map_witness :
  DownloadBill Sample.silent Sample.client Sample.order
    = (Some {[ "return_code" := Success; "return_msg" := "ok";
               "data" := "" ]}%string, Some "connection refused"%string)
  /\ DownloadFundFlow Sample.silent Sample.client Sample.order
    = (Some {[ "return_code" := Success; "return_msg" := "ok";
               "data" := "" ]}%string, Some errNoCert).
Proof.
  split.
  - apply (Download_failed_post_returns_success_map Sample.silent
             Sample.client Sample.order "connection refused").
    reflexivity.
  - apply (Download_failed_post_returns_success_map Sample.silent
             Sample.client Sample.order errNoCert).
    reflexivity.
Defined.

End Instances.


(** * Further properties of the code *)

(** ** What the signature depends on *)

Section SignatureInputs.

Context {pkg : Package}.
Implicit Types (c : Client) (p : Params) (k v key : string) (ks : list string).

Lemma write_all_skips_empty p ks :
  write_all (map (segment p) ks)
  = write_all (map (segment p) (filter (fun k => segment p k <> ""%string) ks)).
Proof.
  induction ks as [|k ks IH]; [done|].
  rewrite filter_cons. cbn [map write_all].
  destruct (decide (segment p k <> ""%string)) as [Hne|Hempty].
  - cbn [map write_all]. by rewrite IH.
  - apply dec_stable in Hempty. by rewrite Hempty, IH.
Qed.

Lemma Sorted_filter_le (P : string -> Prop) `{!forall k, Decision (P k)} ks :
  Sorted String.le ks -> Sorted String.le (filter P ks).
Proof.
  intros Hs. apply (Sorted_StronglySorted _) in Hs.
  apply StronglySorted_Sorted.
  induction Hs as [|k ks Hs IH Hall]; [constructor|].
  rewrite filter_cons. destruct (decide (P k)); [|done].
  constructor; [done|].
  apply Forall_forall. intros k' Hin.
  apply (list_elem_of_filter P) in Hin as [_ Hin].
  by apply (proj1 (Forall_forall _ _) Hall).
Qed.

Lemma filter_sort_Strings (P : string -> Prop) `{!forall k, Decision (P k)} ks :
  filter P (sort_Strings ks) = sort_Strings (filter P ks).
Proof.
  apply (Sorted_unique String.le).
  - apply Sorted_filter_le, Sorted_sort_Strings.
  - apply Sorted_sort_Strings.
  - by rewrite !sort_Strings_Permutation.
Qed.

Lemma segment_GetString p1 p2 k :
  GetString p1 k = GetString p2 k -> segment p1 k = segment p2 k.
Proof. intros Heq. unfold segment. by rewrite Heq. Qed.

Lemma segment_nonempty_present p k :
  segment p k <> ""%string -> is_Some (p !! k).
Proof.
  rewrite segment_lookup. destruct (p !! k) as [v|]; [by exists v|done].
Qed.

Lemma canonical_GetString p1 p2 key :
  (forall k, k <> "sign"%string -> GetString p1 k = GetString p2 k) ->
  canonical key p1 = canonical key p2.
Proof.
  intros Hget. unfold canonical, canonical_from.
  rewrite (write_all_skips_empty p1), (write_all_skips_empty p2).
  rewrite !filter_sort_Strings.
  assert (Hkeys :
    sort_Strings (filter (fun k => segment p1 k <> ""%string)
                    (collect_keys (keys_of p1)))
    = sort_Strings (filter (fun k => segment p2 k <> ""%string)
                      (collect_keys (keys_of p2)))).
  { apply sort_Strings_unique, NoDup_Permutation.
    - apply NoDup_filter, NoDup_collect_keys, NoDup_keys_of.
    - apply NoDup_filter, NoDup_collect_keys, NoDup_keys_of.
    - intros k.
      rewrite (list_elem_of_filter (fun k => segment p1 k <> ""%string)).
      rewrite (list_elem_of_filter (fun k => segment p2 k <> ""%string)).
      rewrite !elem_of_collect_keys, !elem_of_keys_of.
      split; intros (Hseg & Hne & _).
      + rewrite (segment_GetString p1 p2 k (Hget k Hne)) in Hseg.
        auto using segment_nonempty_present.
      + rewrite <- (segment_GetString p1 p2 k (Hget k Hne)) in Hseg.
        auto using segment_nonempty_present. }
  rewrite Hkeys. do 2 f_equal.
  apply map_ext_in. intros k Hin.
  apply list_elem_of_In in Hin. rewrite elem_of_sort_Strings in Hin.
  apply (list_elem_of_filter (fun k => segment p2 k <> ""%string)) in Hin
    as [_ Hin].
  rewrite elem_of_collect_keys in Hin. destruct Hin as [Hne _].
  apply segment_GetString, Hget, Hne.
Qed.

(** X1: the order in which Go iterates over the map does not reach the
    signature: from any enumeration [ks] of the keys, the two loops of
    [Sign] produce the signature that [Sign] gives. *)
Theorem Sign_iteration_order_irrelevant ks1 ks2 c p :
  ks1 ≡ₚ keys_of p -> ks2 ≡ₚ keys_of p ->
  Sign_from ks1 c p = Sign_from ks2 c p.
Proof.
  intros H1 H2. unfold Sign_from. do 2 f_equal.
  by rewrite (canonical_from_order ks1), (canonical_from_order ks2).
Qed.

(** X2: [Sign] does not tell an absent field from a field whose value is
    empty: two maps that [GetString] reads alike on every key other than
    ["sign"] have the same signature. *)
Theorem Sign_blind_to_empty_values c p1 p2 :
  (forall k, k <> "sign"%string -> GetString p1 k = GetString p2 k) ->
  Sign c p1 = Sign c p2.
Proof.
  intros Hget. unfold Sign, Sign_from. do 2 f_equal.
  by apply canonical_GetString.
Qed.

(** With a sign type that the switch of [Sign] does not know. *)
Lemma Sign_no_case c p :
  signType c <> MD5 -> signType c <> HMACSHA256 -> Sign c p = ""%string.
Proof.
  intros Hmd5 Hhmac. unfold Sign, Sign_from, digest_hex.
  by rewrite !decide_False by done.
Qed.

(** X5: under a sign type that is neither [MD5] nor [HMACSHA256] the
    check of [ValidSign] protects nothing: a map passes exactly when its
    ["sign"] field is present and empty, whatever else it holds. *)
Theorem ValidSign_unknown_signType c p :
  signType c <> MD5 -> signType c <> HMACSHA256 ->
  (ValidSign c p = true <-> p !! "sign"%string = Some ""%string).
Proof.
  intros Hmd5 Hhmac.
  by rewrite ValidSign_true_iff, (Sign_no_case c p Hmd5 Hhmac).
Qed.

Lemma canonical_of_sorted_keys ks p key :
  ks ≡ₚ keys_of p -> Sorted String.le ks -> "sign"%string ∉ ks ->
  canonical key p
  = (write_all (map (segment p) ks) ++ "key=" ++ key)%string.
Proof.
  intros Hperm Hsorted Hsign.
  rewrite <- (canonical_from_order ks p key Hperm). unfold canonical_from.
  assert (Hkeep : collect_keys ks = ks).
  { unfold collect_keys. clear Hperm Hsorted.
    induction ks as [|k ks IH]; [done|].
    rewrite filter_cons, decide_True.
    - f_equal. apply IH. intros Hin. apply Hsign. by right.
    - intros ->. apply Hsign. by left. }
  by rewrite Hkeep, sort_Strings_sorted_id.
Qed.

Lemma segment_present p k v :
  p !! k = Some v -> v <> ""%string ->
  segment p k = (k ++ "=" ++ v ++ "&")%string.
Proof.
  intros Hk Hv. rewrite segment_lookup, Hk. by rewrite decide_False.
Qed.

Lemma string_app_nonempty (s1 s2 : string) :
  s1 <> ""%string -> (s1 ++ s2)%string <> ""%string.
Proof. by destruct s1. Qed.

(** X3: the canonical form does not escape its separators. A value that
    contains [&k2=v2] is hashed like a second field [k2] with value [v2]:
    the one-field map and the two-field map have the same signature. *)
Theorem Sign_separator_collision c k1 k2 v1 v2 :
  k1 <> "sign"%string -> k2 <> "sign"%string ->
  k1 <> k2 -> String.le k1 k2 ->
  v1 <> ""%string -> v2 <> ""%string ->
  Sign c {[ k1 := (v1 ++ "&" ++ k2 ++ "=" ++ v2)%string ]}
  = Sign c (<[ k2 := v2 ]> {[ k1 := v1 ]}).
Proof.
  intros Hs1 Hs2 Hne Hle Hv1 Hv2. unfold Sign, Sign_from. do 2 f_equal.
  change (canonical (apiKey (account c))
            {[ k1 := (v1 ++ "&" ++ k2 ++ "=" ++ v2)%string ]}
          = canonical (apiKey (account c)) (<[ k2 := v2 ]> {[ k1 := v1 ]})).
  rewrite (canonical_of_sorted_keys [k1]).
  2: { unfold keys_of. by rewrite map_to_list_singleton. }
  2: { repeat constructor. }
  2: { rewrite list_elem_of_singleton. congruence. }
  rewrite (canonical_of_sorted_keys [k1; k2] (<[ k2 := v2 ]> {[ k1 := v1 ]})).
  2: { unfold keys_of.
       rewrite map_to_list_insert by (by rewrite lookup_singleton_ne).
       rewrite map_to_list_singleton. simpl. apply Permutation_swap. }
  2: { repeat constructor. exact Hle. }
  2: { rewrite !elem_of_cons, elem_of_nil. intros [?|[?|[]]]; congruence. }
  cbn [map write_all].
  rewrite (segment_present _ k1 (v1 ++ "&" ++ k2 ++ "=" ++ v2)%string)
    by (by rewrite ?lookup_singleton_eq; try apply string_app_nonempty).
  rewrite (segment_present _ k1 v1)
    by (by rewrite ?lookup_insert_ne, ?lookup_singleton_eq by done).
  rewrite (segment_present _ k2 v2) by (by rewrite ?lookup_insert_eq).
  by rewrite !string_app_assoc.
Qed.

Lemma length_EncodeToString (bs : list Z) :
  String.length (Hex.EncodeToString bs) = (2 * length bs)%nat.
Proof. induction bs as [|b bs IH]; [done|]. simpl. rewrite IH. lia. Qed.

Lemma length_map_bytes (f : ascii -> ascii) (s : string) :
  String.length (Strings.map_bytes f s) = String.length s.
Proof. induction s as [|a s IH]; [done|]. simpl. by rewrite IH. Qed.

Lemma length_Md5_Sum (msg : list Z) : length (Md5.Sum msg) = 16%nat.
Proof.
  unfold Md5.Sum.
  by destruct (fold_left Md5.block _ Md5.init) as [[[a b] c'] d].
Qed.

Lemma length_Sha256_round W st i :
  length st = 8%nat -> length (Sha256.round W st i) = 8%nat.
Proof.
  intros Hlen.
  destruct st as [|a [|b [|c' [|d [|e [|f [|g [|h [|x st]]]]]]]]]; done.
Qed.

Lemma length_fold_left_invariant {A B} (f : list A -> B -> list A) (n : nat)
    (xs : list B) (st : list A) :
  (forall st' x, length st' = n -> length (f st' x) = n) ->
  length st = n -> length (fold_left f xs st) = n.
Proof.
  intros Hf. revert st. induction xs as [|x xs IH]; intros st Hst; [done|].
  simpl. apply IH, Hf, Hst.
Qed.

Lemma length_Sha256_block st chunk :
  length st = 8%nat -> length (Sha256.block st chunk) = 8%nat.
Proof.
  intros Hlen. unfold Sha256.block.
  rewrite length_map, length_combine, Hlen.
  rewrite (length_fold_left_invariant _ 8); [done| |done].
  intros st' x. apply length_Sha256_round.
Qed.

Lemma length_Sha256_Sum256 (msg : list Z) : length (Sha256.Sum256 msg) = 32%nat.
Proof.
  unfold Sha256.Sum256.
  assert (Hst : length (fold_left Sha256.block
                          (Bytes.chunks 64 (Bytes.pad Word32.len64_be msg))
                          Sha256.init) = 8%nat).
  { apply length_fold_left_invariant; [|done].
    intros st' x. apply length_Sha256_block. }
  destruct (fold_left Sha256.block _ Sha256.init)
    as [|a [|b [|c' [|d [|e [|f [|g [|h [|x st]]]]]]]]]; done.
Qed.

Lemma land_255_range (x : Z) : 0 <= Z.land x 255 < 256.
Proof.
  change 255 with (Z.ones 8). rewrite Z.land_ones by lia.
  change (2 ^ 8) with 256. apply Z.mod_pos_bound. lia.
Qed.

Lemma to_le_range (x : Z) : Forall (fun b => 0 <= b < 256) (Word32.to_le x).
Proof. unfold Word32.to_le. repeat constructor; apply land_255_range. Qed.

Lemma Md5_Sum_range (msg : list Z) :
  Forall (fun b => 0 <= b < 256) (Md5.Sum msg).
Proof.
  unfold Md5.Sum.
  destruct (fold_left Md5.block _ Md5.init) as [[[a b] c'] d].
  rewrite !Forall_app. auto using to_le_range.
Qed.

Lemma Sha256_Sum256_range (msg : list Z) :
  Forall (fun b => 0 <= b < 256) (Sha256.Sum256 msg).
Proof.
  unfold Sha256.Sum256.
  induction (fold_left Sha256.block _ Sha256.init) as [|x st IH]; [constructor|].
  cbn [map concat]. rewrite Forall_app. split; [|exact IH].
  unfold Word32.to_be. apply Forall_rev, to_le_range.
Qed.

Lemma upper_hex_digit (n : Z) :
  0 <= n < 16 ->
  Strings.upper_byte (Hex.digit n) ∈ list_ascii_of_string "0123456789ABCDEF".
Proof.
  intros Hn. rewrite <- (Z2Nat.id n) by lia.
  assert (Hm : (Z.to_nat n < 16)%nat) by lia.
  revert Hm. generalize (Z.to_nat n) as m. intros m Hm.
  do 16 (destruct m as [|m]; [by apply (bool_decide_unpack _)|]).
  lia.
Qed.

Lemma upper_hex_string (bs : list Z) :
  Forall (fun b => 0 <= b < 256) bs ->
  Forall (fun a => a ∈ list_ascii_of_string "0123456789ABCDEF")
    (list_ascii_of_string (Strings.ToUpper (Hex.EncodeToString bs))).
Proof.
  induction 1 as [|b bs Hb Hbs IH]; [constructor|].
  cbn [Hex.EncodeToString Strings.ToUpper Strings.map_bytes list_ascii_of_string].
  constructor; [|constructor; [|exact IH]].
  - apply upper_hex_digit. rewrite Z.shiftr_div_pow2 by lia.
    change (2 ^ 4) with 16. split.
    + apply Z.div_pos; lia.
    + apply Z.div_lt_upper_bound; lia.
  - apply upper_hex_digit. change 15 with (Z.ones 4).
    rewrite Z.land_ones by lia. change (2 ^ 4) with 16.
    apply Z.mod_pos_bound. lia.
Qed.

(** X4: the shape of a signature. Under [MD5] it has 32 characters, under
    [HMACSHA256] 64, and each character is a digit or a capital letter
    from A to F, whatever the sign type. *)
Theorem Sign_format c p :
  (signType c = MD5 -> String.length (Sign c p) = 32%nat)
  /\ (signType c <> MD5 -> signType c = HMACSHA256 ->
      String.length (Sign c p) = 64%nat)
  /\ Forall (fun a => a ∈ list_ascii_of_string "0123456789ABCDEF")
       (list_ascii_of_string (Sign c p)).
Proof.
  unfold Sign, Sign_from, digest_hex, Strings.ToUpper.
  destruct (decide (signType c = MD5)) as [Hmd5|Hmd5];
    [|destruct (decide (signType c = HMACSHA256)) as [Hhmac|Hhmac]].
  - rewrite length_map_bytes, length_EncodeToString, length_Md5_Sum.
    repeat split; [done|].
    apply upper_hex_string, Md5_Sum_range.
  - unfold Hmac.Sum.
    rewrite length_map_bytes, length_EncodeToString, length_Sha256_Sum256.
    repeat split; [done|].
    apply upper_hex_string, Sha256_Sum256_range.
  - repeat split; [done..|]. constructor.
Qed.


End SignatureInputs.



(** ** More on requests and responses *)

Section Transport.

Context {pkg : Package}.
Implicit Types (w : World) (c : Client) (p : Params) (k url : string).

(** Reading a key in a map built by successive writes. *)
Ltac read_writes :=
  rewrite ?lookup_insert; repeat case_decide; simplify_eq; try done.

Lemma fillRequestData_signed c p (payTp : list string) (nonce : string) :
  exists q, fillRequestData c p payTp nonce = <["sign"%string := Sign c q]> q.
Proof. unfold fillRequestData. by eexists. Qed.

Lemma fillRequestData_ValidSign c p (payTp : list string) (nonce : string) :
  ValidSign c (fillRequestData c p payTp nonce) = true.
Proof.
  destruct (fillRequestData_signed c p payTp nonce) as [q ->].
  apply ValidSign_true_iff. by rewrite lookup_insert_eq, Sign_insert_sign.
Qed.

Lemma resign_eq c (q1 q2 : Params) :
  (forall k, k <> "sign"%string -> q1 !! k = q2 !! k) ->
  <["sign"%string := Sign c q1]> q1 = <["sign"%string := Sign c q2]> q2.
Proof.
  intros Hq. rewrite (Sign_ext c q1 q2 Hq). apply map_eq. intros k.
  destruct (decide (k = "sign"%string)) as [->|Hk].
  - by rewrite !lookup_insert_eq.
  - rewrite !lookup_insert_ne by done. by apply Hq.
Qed.

(** X7: filling a map that an earlier call has already filled gives what
    filling the caller's first map gives: the identity fields are written
    again with the same values, the nonce and the signature are replaced.
    A second call with the map that the first one wrote into sends the
    request that a call with a fresh copy would send. *)
Theorem fillRequestData_refill c p (payTp : list string) (n1 n2 : string) :
  fillRequestData c (fillRequestData c p payTp n1) payTp n2
  = fillRequestData c p payTp n2.
Proof.
  unfold fillRequestData.
  destruct payTp as [|tp [|tp' rest]];
    try destruct (decide (tp = MchToCashTp)) as [->|Htp];
    apply resign_eq; intros k Hk; read_writes.
Qed.

(** X8: [postWithoutCert] sends one request whatever comes back: to the
    address given, without certificate, with the XML content type, and
    with the serialization of the map it leaves in the caller's hands;
    that map passes [ValidSign]. The error is nil exactly when the remote
    end replied, and then the body is the reply; otherwise the body is
    empty. *)
Theorem postWithoutCert_one_signed_request w c url p :
  let r := postWithoutCert w c url p in
  let req := mkRequest None url bodyType (MapToXml (out_params r)) in
  out_io r = [req]
  /\ ValidSign c (out_params r) = true
  /\ (forall k, k ∉ ({[ "appid"; "mch_id"; "sign_type"; "nonce_str";
                        "sign" ]}%string : gset string) ->
                out_params r !! k = p !! k)
  /\ (out_err r = None <-> http_Post w req = Replied (out_body r))
  /\ (out_err r <> None -> out_body r = ""%string).
Proof.
  unfold postWithoutCert, send.
  set (q := fillRequestData c p [] (nonceStr w)).
  assert (Hvalid : ValidSign c q = true) by apply fillRequestData_ValidSign.
  assert (Hkeep : forall k,
             k ∉ ({[ "appid"; "mch_id"; "sign_type"; "nonce_str";
                     "sign" ]}%string : gset string) -> q !! k = p !! k).
  { intros k Hk. subst q. unfold fillRequestData.
    rewrite !not_elem_of_union, !not_elem_of_singleton in Hk.
    destruct Hk as ((((? & ?) & ?) & ?) & ?).
    by rewrite !lookup_insert_ne by done. }
  destruct (http_Post w (mkRequest None url bodyType (MapToXml q))) as [e|e|res]
    eqn:Hreply; cbn [out_io out_params out_err out_body];
    rewrite Hreply; repeat split; try done.
Qed.

(** X9: with certificate data, [postWithCert] sends one request that
    carries [pkcs12ToPem] of the data under the merchant id; the map it
    leaves passes [ValidSign]; and without variadic argument the address,
    the body and the map are those of [postWithoutCert]. *)
Theorem postWithCert_one_signed_request w c url p (payTp : list string)
    (data : string) :
  certData (account c) = Some data ->
  let r := postWithCert w c url p payTp in
  out_io r = [mkRequest (Some (pkcs12ToPem data (mchID (account c)))) url
                bodyType (MapToXml (out_params r))]
  /\ ValidSign c (out_params r) = true
  /\ (out_err r <> None -> out_body r = ""%string)
  /\ (payTp = [] ->
      out_params r = out_params (postWithoutCert w c url p)
      /\ map req_body (out_io r) = map req_body (out_io (postWithoutCert w c url p))
      /\ map req_url (out_io r) = map req_url (out_io (postWithoutCert w c url p))).
Proof.
  intros Hcert. unfold postWithCert, postWithoutCert, send. rewrite Hcert.
  set (q := fillRequestData c p payTp (nonceStr w)).
  assert (Hvalid : ValidSign c q = true) by apply fillRequestData_ValidSign.
  repeat split.
  - by destruct (http_Post w _).
  - by destruct (http_Post w _).
  - by destruct (http_Post w _).
  - subst q. subst payTp. by do 2 destruct (http_Post w _).
  - subst q. subst payTp. by do 2 destruct (http_Post w _).
  - subst q. subst payTp. by do 2 destruct (http_Post w _).
Qed.

(** X10: [SetCertFile] either stores the bytes of the file and returns no
    error, after which a client on that account sends its certificate
    requests with [pkcs12ToPem] of these bytes; or it returns the error of
    the read and leaves the account as it was, an earlier certificate
    included. The other fields of the account are never touched. *)
Theorem SetCertFile_outcomes (read : string -> string + error) (a : Account)
    (certPath : string) w c url p (payTp : list string) :
  let out := SetCertFile read a certPath in
  appID out.1 = appID a /\ mchID out.1 = mchID a
  /\ apiKey out.1 = apiKey a /\ isSandbox out.1 = isSandbox a
  /\ (forall err, out.2 = Some err ->
        read certPath = inr err /\ out.1 = a)
  /\ (out.2 = None ->
      exists data, read certPath = inl data
        /\ certData out.1 = Some data
        /\ map req_cert (out_io (postWithCert w (SetAccount c out.1) url p payTp))
           = [Some (pkcs12ToPem data (mchID a))]).
Proof.
  unfold SetCertFile.
  destruct (read certPath) as [data|err]; cbn [fst snd]; split_and!; try done.
  - intros _. exists data. split_and!; try done.
    unfold postWithCert, send. cbn [account SetAccount certData mchID].
    by destruct (http_Post w _).
  - by intros err' [= <-].
Qed.

Lemma processResponseXml_shape c (xmlStr : string) (flags : list bool) :
  processResponseXml c xmlStr flags = (Some (XmlToMap xmlStr), None)
  \/ exists e, processResponseXml c xmlStr flags = (None, Some e).
Proof.
  unfold processResponseXml.
  destruct (ContainsKey _ _); [|right; by eexists].
  destruct (decide (_ = Fail)); [by left|].
  destruct (decide (_ = Success)); [|right; by eexists].
  destruct flags as [|[] [|b rest]];
    try destruct (ValidSign c _); try (by left); right; by eexists.
Qed.

(** X11: the opt-out of the signature check needs the variadic argument
    to be the single value [false]. Any other argument list, a list of two
    flags that starts with [false] included, is treated like no argument:
    the signature is checked. *)
Theorem processResponseXml_flags c (xmlStr : string) (flags : list bool) :
  flags <> [false] ->
  processResponseXml c xmlStr flags = processResponseXml c xmlStr [].
Proof.
  intros Hflags. unfold processResponseXml.
  by destruct flags as [|[] [|b rest]].
Qed.

(** X12: the two timeout settings are stored and never read: a client
    signs, verifies and posts the same whatever values they are given. *)
Theorem timeouts_unused w c url p (payTp : list string) (ms : Z) :
  let c1 := SetHttpConnectTimeoutMs c ms in
  let c2 := SetHttpReadTimeoutMs c ms in
  (Sign c1 p = Sign c p /\ Sign c2 p = Sign c p)
  /\ (ValidSign c1 p = ValidSign c p /\ ValidSign c2 p = ValidSign c p)
  /\ (postWithoutCert w c1 url p = postWithoutCert w c url p
      /\ postWithoutCert w c2 url p = postWithoutCert w c url p)
  /\ (postWithCert w c1 url p payTp = postWithCert w c url p payTp
      /\ postWithCert w c2 url p payTp = postWithCert w c url p payTp).
Proof. done. Qed.

End Transport.

(** ** The endpoints *)

Section EndpointProperties.

Context {pkg : Package} {urls : Url.Table}.
Implicit Types (w : World) (c : Client) (p m : Params).

(** Split a membership in a literal list of endpoints into its cases. *)
Ltac each_endpoint H :=
  repeat (apply elem_of_cons in H as [->|H]); [..|by apply elem_of_nil in H].

Ltac open_endpoint :=
  cbv beta delta [UnifiedOrder MicroPay Refund OrderQuery RefundQuery Reverse
                  CloseOrder Report ShortUrl AuthCodeToOpenid MchToCash] zeta.



(** X14: every endpoint built on [processResponseXml] returns a map or an
    error, never both and never neither; an error of the POST comes back
    with a nil map. At most one request goes out. *)
Theorem endpoints_return_map_or_error
    (f : World -> Client -> Params -> Outcome) w c p :
  f ∈ MchToCash :: checking_endpoints ->
  ((exists m, returned (f w c p) = (Some m, None))
   \/ (exists e, returned (f w c p) = (None, Some e)))
  /\ (length (requests (f w c p)) <= 1)%nat.
Proof.
  intros Hf. unfold checking_endpoints in Hf.
  assert (Hplain : forall url,
             (length (out_io (postWithoutCert w c url p)) <= 1)%nat).
  { intros url. unfold postWithoutCert, send.
    destruct (http_Post w _); simpl; lia. }
  assert (Hcert : forall url (payTp : list string),
             (length (out_io (postWithCert w c url p payTp)) <= 1)%nat).
  { intros url payTp. unfold postWithCert, send.
    destruct (certData (account c)); [|simpl; lia].
    destruct (http_Post w _); simpl; lia. }
  each_endpoint Hf; open_endpoint;
    (split;
     [destruct (out_err _) as [e|]; cbn [returned];
      [right; by exists e|];
      match goal with
      | |- context [processResponseXml c ?x ?fl] =>
          destruct (processResponseXml_shape c x fl) as [->|[e ->]];
          [left; by eexists|right; by eexists]
      end
     |destruct (out_err _); cbn [requests];
      first [apply Hplain|apply Hcert]]).
Qed.

(** X15: the endpoints that need the certificate fail closed. Without
    certificate data [Refund], [Reverse] and [MchToCash] return a nil map
    and the certificate error, send nothing and leave the caller's map
    untouched. *)
Theorem certificate_endpoints_fail_closed
    (f : World -> Client -> Params -> Outcome) w c p :
  f ∈ certificate_endpoints ->
  certData (account c) = None ->
  returned (f w c p) = (None, Some errNoCert)
  /\ requests (f w c p) = []
  /\ params_after (f w c p) = p.
Proof.
  intros Hf Hnil. unfold certificate_endpoints in Hf.
  each_endpoint Hf; open_endpoint; unfold postWithCert; by rewrite Hnil.
Qed.

(** X16: [MchToCash] is the one endpoint that does not check the
    signature and does not look at the sandbox flag. With a certificate,
    a response whose status is [SUCCESS] is returned as decoded, signed or
    not; the request goes to [MchToCashUrl] on a sandbox account too; and
    the map sent carries [mch_appid] and [mchid], with [sign_type] left as
    the caller had it. *)
Theorem MchToCash_unchecked w c p (data xml : string) :
  certData (account c) = Some data ->
  (forall req, http_Post w req = Replied xml) ->
  XmlToMap xml !! "return_code"%string = Some Success ->
  returned (MchToCash w c p) = (Some (XmlToMap xml), None)
  /\ map req_url (requests (MchToCash w c p)) = [Url.MchToCashUrl]
  /\ params_after (MchToCash w c p) !! "mch_appid"%string = Some (appID (account c))
  /\ params_after (MchToCash w c p) !! "mchid"%string = Some (mchID (account c))
  /\ params_after (MchToCash w c p) !! "sign_type"%string = p !! "sign_type"%string
  /\ stdout (MchToCash w c p) = [].
Proof.
  intros Hcert Hreply Hrc. unfold MchToCash, postWithCert, send.
  rewrite Hcert, Hreply. cbn [out_err out_body out_params out_io].
  cbn [returned requests params_after stdout map req_url].
  split_and!; try done.
  - unfold processResponseXml, ContainsKey, GetString. by rewrite Hrc.
  - unfold fillRequestData. rewrite decide_True by done.
    by rewrite !lookup_insert_ne by done; rewrite lookup_insert_eq.
  - unfold fillRequestData. rewrite decide_True by done.
    by rewrite !lookup_insert_ne by done; rewrite lookup_insert_eq.
  - unfold fillRequestData. rewrite decide_True by done.
    by rewrite !lookup_insert_ne by done.
Qed.

(** X17: how [AuthCodeToOpenidMch] ends. It returns an openid without
    error exactly when the GET and the decoding succeed and the [openid]
    entry is a string; it panics exactly when they succeed and the entry
    is there but is not a string; in every other case it returns the
    empty openid with an error, which is the error of [getFromWx] or, for
    a missing entry, the invalid-return error. A line is printed exactly
    when [getFromWx] failed. *)
Theorem AuthCodeToOpenidMch_outcomes (web : Web) c p :
  let out := AuthCodeToOpenidMch web c p in
  let got := getFromWx web (openid_url c p) in
  (forall openID,
      out.1 = Returns (openID, None)
      <-> got.2 = None /\ got.1 !! "openid"%string = Some (DString openID))
  /\ (out.1 = Panics
      <-> got.2 = None /\ exists kind, got.1 !! "openid"%string = Some (DOther kind))
  /\ (forall openID e,
      out.1 = Returns (openID, Some e)
      <-> openID = ""%string
          /\ (got.2 = Some e
              \/ (got.2 = None /\ got.1 !! "openid"%string = None
                  /\ e = errInvalidReturn)))
  /\ (out.2 <> [] <-> got.2 <> None).
Proof.
  unfold AuthCodeToOpenidMch.
  destruct (getFromWx web (openid_url c p)) as [res [e|]]; cbn [fst snd].
  - split_and!.
    + intros openID. split; [done|]. by intros [? _].
    + split; [done|]. by intros [? _].
    + intros openID e'. split.
      * intros [= <- <-]. split; [done|]. by left.
      * intros [-> [[= ->]|[? _]]]; done.
    + done.
  - destruct (res !! "openid"%string) as [[s|kind]|]; cbn [fst snd]; split_and!.
    + intros openID. split; [by intros [= ->]|]. by intros [_ [= ->]].
    + split; [done|]. by intros [_ [kind ?]].
    + intros openID e'. split; [done|]. by intros [_ [?|(_ & ? & _)]].
    + split; [done|]. by intros [].
    + intros openID. split; [done|]. by intros [_ ?].
    + split; [|done]. intros _. split; [done|]. by exists kind.
    + intros openID e'. split; [done|]. by intros [_ [?|(_ & ? & _)]].
    + split; [done|]. by intros [].
    + intros openID. split; [done|]. by intros [_ ?].
    + split; [done|]. by intros [_ [kind ?]].
    + intros openID e'. split.
      * intros [= <- <-]. split; [done|]. by right.
      * by intros [-> [?|(_ & _ & ->)]].
    + split; [done|]. by intros [].
Qed.

(** X18: what every checking endpoint accepts. When the remote end
    answers (and, for [Refund] and [Reverse], the certificate is there), a
    response with status [FAIL] is returned as decoded without any check,
    and so is a response with status [SUCCESS] that passes [ValidSign]. *)
Theorem checking_endpoints_accept
    (f : World -> Client -> Params -> Outcome) w c p (xml : string) :
  f ∈ checking_endpoints ->
  (f = Refund \/ f = Reverse -> certData (account c) <> None) ->
  (forall req, http_Post w req = Replied xml) ->
  XmlToMap xml !! "return_code"%string = Some Fail
  \/ (XmlToMap xml !! "return_code"%string = Some Success
      /\ ValidSign c (XmlToMap xml) = true) ->
  returned (f w c p) = (Some (XmlToMap xml), None).
Proof.
  intros Hf Hcert Hreply Hok. unfold checking_endpoints in Hf.
  assert (Hprocess : processResponseXml c xml [] = (Some (XmlToMap xml), None)).
  { unfold processResponseXml, ContainsKey, GetString.
    destruct Hok as [Hrc|[Hrc Hvalid]]; rewrite Hrc; simpl; [done|].
    by rewrite Hvalid. }
  each_endpoint Hf; open_endpoint; unfold postWithoutCert, postWithCert, send;
    try (destruct (certData (account c)) as [data|];
         [|exfalso; apply Hcert; by auto]);
    by rewrite Hreply.
Qed.

(** [getFromWx] hands back the empty map when the transport failed. *)
Lemma getFromWx_transport_error (web : Web) (url : string) (e : error) :
  http_Get web url = PostFailed e \/ http_Get web url = ReadFailed e ->
  getFromWx web url = (∅, Some e).
Proof. unfold getFromWx. by intros [-> | ->]. Qed.

End EndpointProperties.

(** ** The further properties on the sample data *)

Section MoreInstances.

Existing Instance Demo.pkg.
Existing Instance Demo.urls.

Lemma Sign_iteration_order_irrelevant_witness :
  Sign_from ["a"; "b"]%string Sample.client Sample.order
  = Sign_from ["b"; "a"]%string Sample.client Sample.order.
Proof.
  apply (Sign_iteration_order_irrelevant ["a"; "b"]%string ["b"; "a"]%string
           Sample.client Sample.order).
  - vm_compute. first [reflexivity | apply perm_swap].
  - vm_compute. first [reflexivity | apply perm_swap].
Defined.

(** A field with an empty value, and no field at all. *)
Lemma Sign_blind_to_empty_values_witness :
  Sign Sample.client Sample.order
  = Sign Sample.client {[ "a"%string := "1"%string ]}.
Proof.
  apply (Sign_blind_to_empty_values Sample.client Sample.order
           {[ "a"%string := "1"%string ]}).
  intros k _. unfold GetString, Sample.order.
  destruct (decide (k = "b"%string)) as [->|Hb]; [reflexivity|].
  rewrite lookup_insert_ne by done.
  destruct (decide (k = "a"%string)) as [->|Ha]; [reflexivity|].
  rewrite lookup_insert_ne by done.
  by rewrite lookup_empty, lookup_singleton_ne.
Defined.

Lemma Sign_separator_collision_witness :
  Sign Sample.client {[ "attach"%string := "x&total_fee=1"%string ]}
  = Sign Sample.client
      (<[ "total_fee"%string := "1"%string ]> {[ "attach"%string := "x"%string ]}).
Proof.
  apply (Sign_separator_collision Sample.client "attach" "total_fee" "x" "1").
  - discriminate.
  - discriminate.
  - discriminate.
  - vm_compute. exact I.
  - discriminate.
  - discriminate.
Defined.

Lemma Sign_format_witness :
  signType Sample.client = MD5
  /\ String.length (Sign Sample.client Sample.order) = 32%nat
  /\ signType Sample.hmacClient = HMACSHA256
  /\ String.length (Sign Sample.hmacClient Sample.order) = 64%nat.
Proof.
  destruct (Sign_format Sample.client Sample.order) as (Hmd5 & _ & _).
  destruct (Sign_format Sample.hmacClient Sample.order) as (_ & Hhmac & _).
  split; [reflexivity|]. split; [apply Hmd5; reflexivity|].
  split; [reflexivity|]. apply Hhmac; [discriminate|reflexivity].
Defined.

(** A success response with an empty signature passes under a sign type
    that [Sign] does not know. *)
Lemma ValidSign_unknown_signType_witness :
  ValidSign (SetSignType Sample.client "SHA1")
    {[ "return_code"%string := Success; "sign"%string := ""%string ]} = true.
Proof.
  apply (ValidSign_unknown_signType (SetSignType Sample.client "SHA1")
           {[ "return_code"%string := Success; "sign"%string := ""%string ]}).
  - discriminate.
  - discriminate.
  - reflexivity.
Defined.

Lemma postWithoutCert_one_signed_request_witness :
  out_err (postWithoutCert Sample.silent Sample.client "https://example/pay"
             Sample.order) <> None
  /\ out_body (postWithoutCert Sample.silent Sample.client "https://example/pay"
                 Sample.order) = ""%string
  /\ length (out_io (postWithoutCert Sample.silent Sample.client
                       "https://example/pay" Sample.order)) = 1%nat.
Proof.
  destruct (postWithoutCert_one_signed_request Sample.silent Sample.client
              "https://example/pay" Sample.order)
    as (Hio & _ & _ & _ & Hempty).
  assert (Herr : out_err (postWithoutCert Sample.silent Sample.client
                            "https://example/pay" Sample.order) <> None)
    by discriminate.
  split; [exact Herr|]. split; [exact (Hempty Herr)|].
  by rewrite Hio.
Defined.

Lemma postWithCert_one_signed_request_witness :
  certData (account Demo.certClient) = Some "PKCS12"%string
  /\ map req_cert (out_io (postWithCert (Sample.answering "ok") Demo.certClient
                             "https://example/refund" Sample.order []))
     = [Some "PKCS12#1900000109"%string]
  /\ ValidSign Demo.certClient
       (out_params (postWithCert (Sample.answering "ok") Demo.certClient
                      "https://example/refund" Sample.order [])) = true.
Proof.
  assert (Hcert : certData (account Demo.certClient) = Some "PKCS12"%string)
    by reflexivity.
  destruct (postWithCert_one_signed_request (Sample.answering "ok")
              Demo.certClient "https://example/refund" Sample.order []
              "PKCS12" Hcert) as (Hio & Hvalid & _).
  split; [exact Hcert|]. split; [|exact Hvalid].
  rewrite Hio. reflexivity.
Defined.

Lemma SetCertFile_outcomes_witness :
  (SetCertFile Demo.disk Demo.acct "cert/apiclient_cert.p12").2 = None
  /\ certData (SetCertFile Demo.disk Demo.acct "cert/apiclient_cert.p12").1
     = Some "PKCS12"%string
  /\ (SetCertFile Demo.disk Demo.certAcct "missing.p12").2
     = Some "open: no such file or directory"%string
  /\ (SetCertFile Demo.disk Demo.certAcct "missing.p12").1 = Demo.certAcct.
Proof.
  destruct (SetCertFile_outcomes Demo.disk Demo.acct "cert/apiclient_cert.p12"
              Sample.silent Demo.client "https://example/refund" Sample.order [])
    as (_ & _ & _ & _ & _ & Hok).
  destruct (SetCertFile_outcomes Demo.disk Demo.certAcct "missing.p12"
              Sample.silent Demo.client "https://example/refund" Sample.order [])
    as (_ & _ & _ & _ & Hfail & _).
  assert (Hnone : (SetCertFile Demo.disk Demo.acct "cert/apiclient_cert.p12").2
                  = None) by reflexivity.
  assert (Hsome : (SetCertFile Demo.disk Demo.certAcct "missing.p12").2
                  = Some "open: no such file or directory"%string)
    by reflexivity.
  split; [exact Hnone|].
  split; [destruct (Hok Hnone) as (data & _ & Hdata & _); reflexivity|].
  split; [exact Hsome|].
  exact (proj2 (Hfail _ Hsome)).
Defined.

(** Two flags, the first of them [false]: the signature is checked, and
    the unsigned success document is refused. *)
Lemma processResponseXml_flags_witness :
  [false; false] <> [false]
  /\ processResponseXml Demo.client Demo.unsignedDoc [false; false]
     = processResponseXml Demo.client Demo.unsignedDoc []
  /\ processResponseXml Demo.client Demo.unsignedDoc []
     = (None, Some errInvalidSign)
  /\ processResponseXml Demo.client Demo.unsignedDoc [false]
     = (Some (XmlToMap Demo.unsignedDoc), None).
Proof.
  assert (Hflags : [false; false] <> [false]) by discriminate.
  split; [exact Hflags|].
  split; [exact (processResponseXml_flags Demo.client Demo.unsignedDoc
                   [false; false] Hflags)|].
  split; vm_compute; reflexivity.
Defined.


Lemma endpoints_return_map_or_error_witness :
  (length (requests (MicroPay Sample.silent Demo.client Sample.order)) <= 1)%nat.
Proof.
  apply (endpoints_return_map_or_error MicroPay Sample.silent Demo.client
           Sample.order).
  apply list_elem_of_further, list_elem_of_further, list_elem_of_here.
Defined.

Lemma certificate_endpoints_fail_closed_witness :
  certData (account Demo.client) = None
  /\ returned (Refund (Sample.answering Demo.signedDoc) Demo.client Sample.order)
     = (None, Some errNoCert)
  /\ requests (MchToCash (Sample.answering Demo.signedDoc) Demo.client
                 Sample.order) = [].
Proof.
  assert (Hnil : certData (account Demo.client) = None) by reflexivity.
  split; [exact Hnil|]. split.
  - apply (certificate_endpoints_fail_closed Refund
             (Sample.answering Demo.signedDoc) Demo.client Sample.order);
      [apply list_elem_of_here|exact Hnil].
  - apply (certificate_endpoints_fail_closed MchToCash
             (Sample.answering Demo.signedDoc) Demo.client Sample.order);
      [apply list_elem_of_further, list_elem_of_further, list_elem_of_here
      |exact Hnil].
Defined.

(** The unsigned success document: [MchToCash] returns it, and sends to
    the production address although the account is a sandbox one. *)
Lemma MchToCash_unchecked_witness :
  isSandbox (account Demo.certClient) = true
  /\ ValidSign Demo.certClient (XmlToMap Demo.unsignedDoc) = false
  /\ returned (MchToCash (Sample.answering Demo.unsignedDoc) Demo.certClient
                 Sample.order)
     = (Some (XmlToMap Demo.unsignedDoc), None)
  /\ map req_url (requests (MchToCash (Sample.answering Demo.unsignedDoc)
                              Demo.certClient Sample.order))
     = [Url.MchToCashUrl].
Proof.
  split; [reflexivity|]. split; [vm_compute; reflexivity|].
  destruct (MchToCash_unchecked (Sample.answering Demo.unsignedDoc)
              Demo.certClient Sample.order "PKCS12" Demo.unsignedDoc)
    as (Hret & Hurl & _).
  - reflexivity.
  - intros req. reflexivity.
  - vm_compute. reflexivity.
  - split; [exact Hret|exact Hurl].
Defined.

Lemma checking_endpoints_accept_witness :
  returned (Refund (Sample.answering Sample.failDoc) Demo.certClient Sample.order)
  = (Some (XmlToMap Sample.failDoc), None).
Proof.
  apply (checking_endpoints_accept Refund (Sample.answering Sample.failDoc)
           Demo.certClient Sample.order Sample.failDoc).
  - apply list_elem_of_further, list_elem_of_further, list_elem_of_here.
  - intros _. discriminate.
  - intros req. reflexivity.
  - left. vm_compute. reflexivity.
Defined.

(** The three ways [AuthCodeToOpenidMch] ends. *)
Lemma AuthCodeToOpenidMch_outcomes_witness :
  (AuthCodeToOpenidMch (Demo.web (Some (DString "oUpF8uMuAJO"))) Demo.client
     Sample.order).1 = Returns ("oUpF8uMuAJO"%string, None)
  /\ (AuthCodeToOpenidMch (Demo.web (Some (DOther KFloat64))) Demo.client
        Sample.order).1 = Panics
  /\ (AuthCodeToOpenidMch (Demo.web None) Demo.client Sample.order).1
     = Returns (""%string, Some errInvalidReturn).
Proof.
  split; [|split].
  - apply (AuthCodeToOpenidMch_outcomes (Demo.web (Some (DString "oUpF8uMuAJO")))
             Demo.client Sample.order).
    split; reflexivity.
  - apply (AuthCodeToOpenidMch_outcomes (Demo.web (Some (DOther KFloat64)))
             Demo.client Sample.order).
    split; [reflexivity|]. by exists KFloat64.
  - apply (AuthCodeToOpenidMch_outcomes (Demo.web None) Demo.client Sample.order).
    split; [reflexivity|]. right. repeat split; reflexivity.
Defined.

End MoreInstances.
